(** * Prompt chain manager: sequential and parallel chain execution

    Shallow embedding of [shared_utils/prompt_chaining_utils.py]
    ([PromptChainManager.execute_sequential_chain] and
    [PromptChainManager.execute_parallel_chains]) and the properties of
    the returned outcome structures.

    Conventions of the embedding.
    - Python [int]s that the caller chooses ([max_retries]) or that are
      compared with them ([retry_count], the counts of the parallel
      outcome) are [Z]; list positions and lengths are [nat].
    - A Python call that may raise returns a [pyresult]; [except Exception]
      is a match on it.
    - [self.llm] is only ever used through the pipeline
      [PromptTemplate.from_template(t) | self.llm | StrOutputParser()] and
      its [invoke]; that pipeline is the text-generation callable of the
      embedding.  It is stateful in general (a retry may succeed where
      the first attempt failed), so it takes the number of the invocation
      as a ticket: [llm ticket template bindings].
    - Wall-clock values ([time.time()], [datetime.now()], the rounded
      durations) and calls to the logger are left out: no control flow
      depends on them. *)

From Equations Require Import Equations.
From Stdlib Require Import List String Ascii ZArith Bool Lia DecimalString.
Import ListNotations.
Local Open Scope string_scope.
Local Open Scope Z_scope.

(** ** Python values *)

(** The exceptions of the embedding, all subclasses of [Exception]. *)
Inductive pyexn : Type :=
| ValueError (msg : string)
| CallableError (msg : string).

(** [str(e)] *)
Definition str_exn (e : pyexn) : string :=
  match e with
  | ValueError msg => msg
  | CallableError msg => msg
  end.

Inductive pyresult (A : Type) : Type :=
| Returned (a : A)
| Raised (e : pyexn).
Arguments Returned {A} a.
Arguments Raised {A} e.

(** [str(n)] for the integers that appear in f-strings. *)
Definition str_nat (n : nat) : string := NilEmpty.string_of_uint (Nat.to_uint n).
Definition str_int (z : Z) : string := NilEmpty.string_of_int (Z.to_int z).

Definition newline : string := String (ascii_of_nat 10) EmptyString.

(** What [str.upper()] does to a string of ASCII characters: the letters
    [a] to [z] become capitals.  On other characters the builtin follows
    the Unicode tables, which are not part of this development: the
    manager below takes [str.upper] as a parameter, and [ascii_upper]
    serves as its instance on the sample runs, whose names are ASCII. *)
Definition upper_ascii (c : ascii) : ascii :=
  let n := nat_of_ascii c in
  if ((97 <=? n) && (n <=? 122))%nat then ascii_of_nat (n - 32) else c.

Fixpoint ascii_upper (s : string) : string :=
  match s with
  | EmptyString => EmptyString
  | String c rest => String (upper_ascii c) (ascii_upper rest)
  end.

(** A Python [dict] with string keys: the items in insertion order, keys
    unique. *)
Definition pydict (V : Type) : Type := list (string * V).

Definition dict_keys {V} (d : pydict V) : list string := map fst d.

(** [len(d)] *)
Definition dict_len {V} (d : pydict V) : Z := Z.of_nat (List.length d).

(** [d[k] = v]: an existing key keeps its position, a new one goes last. *)
Fixpoint dict_set {V} (d : pydict V) (k : string) (v : V) : pydict V :=
  match d with
  | [] => [(k, v)]
  | (k', v') :: rest =>
      if String.eqb k' k then (k', v) :: rest else (k', v') :: dict_set rest k v
  end.

(** [d.get(k)] *)
Fixpoint dict_get {V} (d : pydict V) (k : string) : option V :=
  match d with
  | [] => None
  | (k', v') :: rest => if String.eqb k' k then Some v' else dict_get rest k
  end.

(** One round of a comprehension: the item [r] is entered if it is kept. *)
Definition dict_add {A V} (keep : A -> bool) (key : A -> string)
    (value : A -> V) (d : pydict V) (r : A) : pydict V :=
  if keep r then dict_set d (key r) (value r) else d.

(** [{key(r): value(r) for r in l if keep(r)}] *)
Definition dict_comprehension {A V} (keep : A -> bool) (key : A -> string)
    (value : A -> V) (l : list A) : pydict V :=
  fold_left (dict_add keep key value) l [].

(** ** Data model *)

(** A validator is a caller-supplied predicate on the generated text; as
    any callable it may raise. *)
Definition Validator : Type := string -> pyresult bool.

(** One entry of [chain_steps]: the keys ["template"], ["validators"] and
    ["validator"], the last two optional. *)
Record Step : Type := {
  template : string;
  validators : option (pydict Validator);
  validator : option Validator
}.

(** An entry of [validation_results]. *)
Record ValidationResult : Type := {
  validator_name : string;
  passed : bool
}.

(** An entry of [self.chain_history]. *)
Record StepLog : Type := {
  log_step : nat;
  log_template : string;
  input_preview : string;
  retry_attempt : Z
}.

(** An entry of [results]. *)
Record StepResult : Type := {
  step : nat;
  output : string;
  validation_results : list ValidationResult;
  retry_count : Z;
  output_length : nat
}.

(** An entry of [self.execution_log]. *)
Inductive LogEntry : Type :=
| LogFailed (error : string) (failed_step : nat) (total_retries : Z)
| LogSuccess (steps_completed : nat).

(** The mutable part of a [PromptChainManager].  [step_timings] holds the
    step numbers recorded by [record_step_timing]; [invocations] counts
    the calls made to the text-generation callable so far and [backoff]
    the exponents of the waits [0.5 * 2 ** (retry_count - 1)] slept so
    far. *)
Record Manager : Type := {
  chain_history : list StepLog;
  execution_log : list LogEntry;
  step_timings : list nat;
  invocations : nat;
  backoff : list Z
}.

(** The fresh manager built by [__init__]. *)
Definition new_manager : Manager :=
  {| chain_history := []; execution_log := []; step_timings := [];
     invocations := 0%nat; backoff := [] |}.

(** The dictionary returned by [execute_sequential_chain]: the success
    shape with ["results"] and ["final_output"], or the failure shape with
    ["error"] and ["partial_results"].  [total_steps] is the entry of that
    name in ["performance_metrics"]. *)
Inductive ChainOutcome : Type :=
| ChainSuccess (results : list StepResult) (final_output : string)
    (execution_history : list StepLog) (total_steps : nat)
    (log : list LogEntry)
| ChainFailure (error : string) (partial_results : list StepResult)
    (execution_history : list StepLog) (total_steps : nat).

(** The ["success"] key. *)
Definition chain_success (o : ChainOutcome) : bool :=
  match o with
  | ChainSuccess _ _ _ _ _ => true
  | ChainFailure _ _ _ _ => false
  end.

(** How one pass through the [try] block ends. [ran] is the local
    [validation_results] as it stands when control leaves the block. *)
Inductive AttemptExit : Type :=
| AttemptPassed (result : string) (ran : list ValidationResult)
| AttemptRaised (ran : list ValidationResult) (e : pyexn).

(** How the [while] loop of one step ends: the step succeeded, the
    function returned [error_result], or the loop condition failed with
    [step_successful] still false. *)
Inductive StepExit : Type :=
| StepCompleted (r : StepResult)
| StepAborted (error_result : ChainOutcome)
| StepNotRun.

(** An entry of [parallel_results], the dictionary returned by
    [run_single_prompt]: the keys ["name"], ["result"], ["success"] and,
    where present, ["output_length"] and ["error"]. *)
Record TaskResult : Type := {
  name : string;
  result : string;
  task_success : bool;
  task_output_length : option nat;
  task_error : option string
}.

(** The dictionary returned by [execute_parallel_chains];
    [max_workers_used] is the entry of that name in
    ["performance_metrics"]. *)
Record ParallelOutcome : Type := {
  success : bool;
  parallel_results : pydict string;
  successful_count : Z;
  failed_count : Z;
  synthesis : option string;
  execution_details : list TaskResult;
  max_workers_used : Z
}.

(** Truth value of a dictionary or list: false when empty. *)
Definition is_empty {A} (l : list A) : bool :=
  match l with
  | [] => true
  | _ :: _ => false
  end.

(** [ThreadPoolExecutor(max_workers=...)] of [concurrent.futures], which
    refuses a pool without workers. *)
Definition ThreadPoolExecutor (max_workers : Z) : pyresult unit :=
  if max_workers <=? 0
  then Raised (ValueError "max_workers must be greater than 0")
  else Returned tt.

(** ** Updates of the manager *)

(** [self.chain_history.append(step_log)] *)
Definition append_history (m : Manager) (step_log : StepLog) : Manager :=
  {| chain_history := (chain_history m ++ [step_log])%list;
     execution_log := execution_log m; step_timings := step_timings m;
     invocations := invocations m; backoff := backoff m |}.

(** [self.execution_log.append(entry)] *)
Definition append_execution_log (m : Manager) (entry : LogEntry) : Manager :=
  {| chain_history := chain_history m;
     execution_log := (execution_log m ++ [entry])%list;
     step_timings := step_timings m;
     invocations := invocations m; backoff := backoff m |}.

(** [self.performance_metrics.record_step_timing(n, step_duration)] *)
Definition record_step_timing (m : Manager) (n : nat) : Manager :=
  {| chain_history := chain_history m; execution_log := execution_log m;
     step_timings := (step_timings m ++ [n])%list;
     invocations := invocations m; backoff := backoff m |}.

(** [calls] more invocations of the text-generation callable. *)
Definition invoked (m : Manager) (calls : nat) : Manager :=
  {| chain_history := chain_history m; execution_log := execution_log m;
     step_timings := step_timings m;
     invocations := (invocations m + calls)%nat; backoff := backoff m |}.

(** [time.sleep(0.5 * (2 ** (retry_count - 1)))] *)
Definition sleep (m : Manager) (retry_count : Z) : Manager :=
  {| chain_history := chain_history m; execution_log := execution_log m;
     step_timings := step_timings m; invocations := invocations m;
     backoff := (backoff m ++ [retry_count - 1])%list |}.

(** ** The chain manager *)

Section PromptChainManager.

(** [self.llm] behind the prompt pipeline, and [self.max_retries]; both
    are set by [__init__] and never assigned again. *)
Variable llm : nat -> string -> list (string * string) -> pyresult string.
Variable max_retries : Z.

(** The builtin [str.upper], used on the task names of a parallel run. *)
Variable str_upper : string -> string.

(** The loop [for validator_name, validator_func in
    step["validators"].items()] with its [raise]: the validators run in
    order until one returns false or raises. *)
Fixpoint run_validators (i : nat) (vs : pydict Validator) (result : string)
    (validation_results : list ValidationResult)
  : list ValidationResult * option pyexn :=
  match vs with
  | [] => (validation_results, None)
  | (validator_name, validator_func) :: rest =>
      match validator_func result with
      | Raised e => (validation_results, Some e)
      | Returned is_valid =>
          let validation_results :=
            (validation_results
               ++ [{| validator_name := validator_name; passed := is_valid |}])%list in
          if negb is_valid then
            (validation_results,
             Some (ValueError ("Step " ++ str_nat (i + 1) ++ " failed "
                                 ++ validator_name ++ " validation")))
          else run_validators i rest result validation_results
      end
  end.

(** The validation of one output: the ["validators"] dictionary when the
    step has that key, otherwise the single ["validator"] when present. *)
Definition validate (i : nat) (s : Step) (result : string)
  : list ValidationResult * option pyexn :=
  match validators s with
  | Some vs => run_validators i vs result []
  | None =>
      match validator s with
      | Some validator_func =>
          match validator_func result with
          | Raised e => ([], Some e)
          | Returned is_valid =>
              let validation_results :=
                [{| validator_name := "default"; passed := is_valid |}] in
              if negb is_valid then
                (validation_results,
                 Some (ValueError ("Step " ++ str_nat (i + 1)
                                     ++ " validation failed")))
              else (validation_results, None)
          end
      | None => ([], None)
      end
  end.

(** One call [chain.invoke(bindings)] of the pipeline built from
    [template]: the callable is applied, as its invocation number
    [invocations m], and the invocation is counted.  This is the only place
    of the sequential executor where the callable is applied and the only
    one where its invocations are counted. *)
Definition invoke (m : Manager) (template : string)
    (bindings : list (string * string)) : Manager * pyresult string :=
  (invoked m 1, llm (invocations m) template bindings).

(** What the [try] block makes of the reply of the callable: an exception
    of the call leaves the block at once, a generated text is validated. *)
Definition validate_reply (i : nat) (s : Step) (reply : pyresult string)
  : AttemptExit :=
  match reply with
  | Raised e => AttemptRaised [] e
  | Returned result =>
      match validate i s result with
      | (ran, Some e) => AttemptRaised ran e
      | (ran, None) => AttemptPassed result ran
      end
  end.

(** The [try] block up to the end of the validation: the attempt is
    logged, the callable is invoked once on the step's template and the
    current input, and its reply is validated. *)
Definition run_attempt (i : nat) (s : Step) (current_input : string)
    (retry_count : Z) (m : Manager) : Manager * AttemptExit :=
  let step_log :=
    {| log_step := (i + 1)%nat; log_template := template s;
       input_preview := current_input; retry_attempt := retry_count |} in
  let m := append_history m step_log in
  let (m, reply) := invoke m (template s) [("input", current_input)] in
  (m, validate_reply i s reply).

(** How the attempt of step [i] ends when it is made as invocation number
    [ticket] of the callable. *)
Definition generate_and_validate (ticket i : nat) (s : Step)
    (current_input : string) : AttemptExit :=
  validate_reply i s (llm ticket (template s) [("input", current_input)]).

(** The message of [error_result]. *)
Definition chain_error (i : nat) (error_msg : string) : string :=
  "Chain failed at step " ++ str_nat (i + 1) ++ " after "
    ++ str_int (max_retries + 1) ++ " attempts: " ++ error_msg.

(** [error_result], followed by the ["failed"] entry of the execution
    log. *)
Definition fail_chain (i : nat) (results : list StepResult)
    (retry_count : Z) (error_msg : string) (m : Manager)
  : Manager * ChainOutcome :=
  let error_result :=
    ChainFailure (chain_error i error_msg)
      results (chain_history m) (List.length (step_timings m)) in
  (append_execution_log m
     (LogFailed error_msg (i + 1)%nat (retry_count - 1)),
   error_result).

(** A value together with the equation that it is the value of [x]; the
    loop below needs its own condition to show that it terminates. *)
Definition inspect {A : Type} (x : A) : {y : A | x = y} := exist _ x eq_refl.

(** The loop [while retry_count <= self.max_retries and not
    step_successful] of step [i], entered with the given [retry_count]. *)
Equations? retry_loop (i : nat) (s : Step) (current_input : string)
    (results : list StepResult) (retry_count : Z) (m : Manager)
  : Manager * StepExit
  by wf (Z.to_nat (max_retries + 1 - retry_count)) lt :=
  retry_loop i s current_input results retry_count m
    with inspect (retry_count <=? max_retries) := {
    | exist _ false _ => (m, StepNotRun)
    | exist _ true Hwhile
        with run_attempt i s current_input retry_count m := {
        | (m1, AttemptPassed result ran) =>
            (record_step_timing m1 (i + 1)%nat,
             StepCompleted
               {| step := (i + 1)%nat; output := result;
                  validation_results := ran; retry_count := retry_count;
                  output_length := String.length result |})
        | (m1, AttemptRaised _ e)
            with inspect (retry_count + 1 >? max_retries) := {
            | exist _ true _ =>
                let (m2, error_result) :=
                  fail_chain i results (retry_count + 1) (str_exn e) m1 in
                (m2, StepAborted error_result)
            | exist _ false Hretry =>
                let m2 :=
                  if retry_count + 1 <=? max_retries
                  then sleep m1 (retry_count + 1) else m1 in
                retry_loop i s current_input results (retry_count + 1) m2 } } }.
Proof. lia. Qed.

(** The loop [for i, step in enumerate(chain_steps)]: either the
    function returned from inside it, or it ran to its end with the
    final [current_input] and [results]. *)
Fixpoint for_steps (i : nat) (chain_steps : list Step)
    (current_input : string) (results : list StepResult) (m : Manager)
  : Manager * (ChainOutcome + string * list StepResult) :=
  match chain_steps with
  | [] => (m, inr (current_input, results))
  | s :: rest =>
      match retry_loop i s current_input results 0 m with
      | (m', StepCompleted r) =>
          for_steps (i + 1) rest (output r) (results ++ [r])%list m'
      | (m', StepAborted error_result) => (m', inl error_result)
      | (m', StepNotRun) => for_steps (i + 1) rest current_input results m'
      end
  end.

(** [PromptChainManager.execute_sequential_chain].  Every operation of
    the loop that can raise sits inside the [try] block, so the method
    always returns a dictionary. *)
Definition execute_sequential_chain (m : Manager) (chain_steps : list Step)
    (initial_input : string) : Manager * ChainOutcome :=
  match for_steps 0 chain_steps initial_input [] m with
  | (m', inl error_result) => (m', error_result)
  | (m', inr (current_input, results)) =>
      let m'' := append_execution_log m' (LogSuccess (List.length chain_steps)) in
      (m'',
       ChainSuccess results current_input (chain_history m'')
         (List.length (step_timings m'')) (execution_log m''))
  end.

(** *** Vocabulary for the properties of a sequential run *)

(** The history entry written by attempt number [j] of a loop entered
    with [retry_count]. *)
Definition attempt_log (i : nat) (s : Step) (current_input : string)
    (retry_count : Z) (j : nat) : StepLog :=
  {| log_step := (i + 1)%nat; log_template := template s;
     input_preview := current_input;
     retry_attempt := retry_count + Z.of_nat j |}.

(** The attempt made as invocation [ticket] ends in the [except] branch. *)
Definition attempt_raised (ticket i : nat) (s : Step)
    (current_input : string) : Prop :=
  exists ran e,
    generate_and_validate ticket i s current_input = AttemptRaised ran e.

(** What the loop of one step, entered with [retry_count = entered_with],
    has done when it ends, in terms of the number [k] of attempts it
    made. *)
Definition loop_post (i : nat) (s : Step) (current_input : string)
    (results : list StepResult) (entered_with : Z) (m m' : Manager)
    (exit : StepExit) (k : nat) : Prop :=
  match exit with
  | StepCompleted r =>
      exists k0 : nat,
        k = S k0 /\
        (forall j, (j < k0)%nat ->
                   attempt_raised (invocations m + j) i s current_input) /\
        generate_and_validate (invocations m + k0) i s current_input
          = AttemptPassed (output r) (validation_results r) /\
        step r = (i + 1)%nat /\
        retry_count r = entered_with + Z.of_nat k0 /\
        entered_with + Z.of_nat k0 <= max_retries /\
        output_length r = String.length (output r) /\
        step_timings m' = (step_timings m ++ [(i + 1)%nat])%list /\
        execution_log m' = execution_log m
  | StepAborted error_result =>
      Z.of_nat k = max_retries + 1 - entered_with /\
      (0 < k)%nat /\
      (forall j, (j < k)%nat ->
                 attempt_raised (invocations m + j) i s current_input) /\
      exists ran e,
        generate_and_validate (invocations m + (k - 1)) i s current_input
          = AttemptRaised ran e /\
        error_result
          = ChainFailure (chain_error i (str_exn e)) results
              (chain_history m') (List.length (step_timings m)) /\
        step_timings m' = step_timings m /\
        execution_log m'
          = (execution_log m
               ++ [LogFailed (str_exn e) (i + 1)%nat max_retries])%list
  | StepNotRun => k = 0%nat /\ m' = m /\ max_retries < entered_with
  end.

(** The entry [vr] records the verdict of the validator [item] on
    [result]. *)
Definition records (result : string) (item : string * Validator)
    (vr : ValidationResult) : Prop :=
  validator_name vr = fst item /\ snd item result = Returned (passed vr).

(** Why the validation loop was left early at the validator in position
    [n]: it returned false, which is recorded, or it raised. *)
Definition stopped_at (i : nat) (vs : pydict Validator) (result : string)
    (new : list ValidationResult) (e : pyexn) (n : nat) : Prop :=
  exists validator_name validator_func,
    nth_error vs n = Some (validator_name, validator_func) /\
    Forall (fun vr => passed vr = true) (firstn n new) /\
    ((validator_func result = Returned false /\
      List.length new = S n /\
      e = ValueError ("Step " ++ str_nat (i + 1) ++ " failed "
                        ++ validator_name ++ " validation"))
     \/ (validator_func result = Raised e /\ List.length new = n)).

(** *** Parallel chains *)

(** [run_single_prompt], the closure that a worker runs for one task: one
    invocation of the callable, whose exception, if any, is caught here. *)
Definition run_single_prompt (document : string) (ticket : nat)
    (prompt_name template : string) : TaskResult :=
  match llm ticket template [("document", document)] with
  | Returned result =>
      {| name := prompt_name; result := result; task_success := true;
         task_output_length := Some (String.length result);
         task_error := None |}
  | Raised e =>
      let error_msg := str_exn e in
      {| name := prompt_name; result := "Error: " ++ error_msg;
         task_success := false; task_output_length := None;
         task_error := Some error_msg |}
  end.

(** [[future.result() for future in futures]]: one task per item of
    [prompt_templates], in the order of the items.  The workers run
    concurrently; each makes exactly one invocation, identified here by
    the position of its task, so that an arbitrary [llm] stands for every
    interleaving of the workers. *)
Fixpoint submit_all (document : string) (ticket : nat)
    (items : pydict string) : list TaskResult :=
  match items with
  | [] => []
  | (prompt_name, template) :: rest =>
      run_single_prompt document ticket prompt_name template
        :: submit_all document (ticket + 1) rest
  end.

(** The text given to the synthesis template as [analysis_results]. *)
Definition synthesis_input (successful_results : pydict string) : string :=
  String.concat (newline ++ newline)
    (map (fun item => str_upper (fst item) ++ ":" ++ newline ++ snd item)
         successful_results).

(** The block guarded by [if synthesis_template and successful_results]:
    one more invocation of the callable, whose exception is caught. *)
Definition synthesize (m : Manager) (synthesis_template : option string)
    (successful_results : pydict string) (document : string)
  : Manager * option string :=
  match synthesis_template with
  | Some t =>
      if negb (String.eqb t EmptyString) && negb (is_empty successful_results)
      then
        let ticket := invocations m in
        let m := invoked m 1 in
        match llm ticket t
                [("analysis_results", synthesis_input successful_results);
                 ("original_document", document)] with
        | Returned synthesis_result => (m, Some synthesis_result)
        | Raised e => (m, Some ("Synthesis failed: " ++ str_exn e))
        end
      else (m, None)
  | None => (m, None)
  end.

(** [PromptChainManager.execute_parallel_chains]. *)
Definition execute_parallel_chains (m : Manager)
    (prompt_templates : pydict string) (document : string)
    (synthesis_template : option string)
  : Manager * pyresult ParallelOutcome :=
  let max_workers := Z.min (dict_len prompt_templates) 4 in
  match ThreadPoolExecutor max_workers with
  | Raised e => (m, Raised e)
  | Returned _ =>
      let parallel_results :=
        submit_all document (invocations m) prompt_templates in
      let m := invoked m (List.length prompt_templates) in
      let results_dict :=
        dict_comprehension (fun _ => true) name result parallel_results in
      let successful_results :=
        dict_comprehension task_success name result parallel_results in
      let (m, synthesis_result) :=
        synthesize m synthesis_template successful_results document in
      (m,
       Returned
         {| success := true;
            parallel_results := results_dict;
            successful_count := dict_len successful_results;
            failed_count :=
              Z.of_nat (List.length parallel_results)
                - dict_len successful_results;
            synthesis := synthesis_result;
            execution_details := parallel_results;
            max_workers_used := max_workers |})
  end.

End PromptChainManager.

(** The ["results"] of a success outcome, the ["partial_results"] of a
    failure outcome. *)
Definition outcome_results (o : ChainOutcome) : list StepResult :=
  match o with
  | ChainSuccess results _ _ _ _ => results
  | ChainFailure _ partial_results _ _ => partial_results
  end.

(** The validation results that an attempt had collected when it ended:
    one entry per validator that returned. *)
Definition attempt_ran (exit : AttemptExit) : list ValidationResult :=
  match exit with
  | AttemptPassed _ ran => ran
  | AttemptRaised ran _ => ran
  end.

(** ** Sample callables, validators and steps *)

(** A callable that answers every prompt with its first binding prefixed
    by [OUT:]. *)
Definition echo_llm (ticket : nat) (template : string)
    (bindings : list (string * string)) : pyresult string :=
  match bindings with
  | (_, v) :: _ => Returned ("OUT:" ++ v)
  | [] => Returned "OUT:"
  end.

(** A callable that raises on the template ["boom"] and echoes the other
    templates. *)
Definition flaky_llm (ticket : nat) (template : string)
    (bindings : list (string * string)) : pyresult string :=
  if String.eqb template "boom" then Raised (CallableError "connection lost")
  else Returned ("OUT:" ++ template).


(** A callable that raises on every prompt. *)
Definition down_llm (ticket : nat) (template : string)
    (bindings : list (string * string)) : pyresult string :=
  Raised (CallableError "service unavailable").

Definition always_true : Validator := fun _ => Returned true.
Definition always_false : Validator := fun _ => Returned false.

Definition plain_step (t : string) : Step :=
  {| template := t; validators := None; validator := None |}.

Definition rejecting_step (t : string) : Step :=
  {| template := t; validators := None; validator := Some always_false |}.

(** A step whose first named validator rejects every output. *)
Definition two_validator_step : Step :=
  {| template := "Summarise: {input}";
     validators := Some [("length", always_false); ("format", always_true)];
     validator := None |}.

Definition echo_steps : list Step :=
  [plain_step "Outline: {input}"; plain_step "Draft: {input}";
   plain_step "Refine: {input}"].

Definition failing_tasks : pydict string :=
  [("summary", "Summarise: {document}"); ("risks", "List risks: {document}")].

Definition mixed_tasks : pydict string := [("a", "ok"); ("b", "boom")].

(** ** Further views of the outcome of a sequential run *)

(** The ["execution_history"] of an outcome. *)
Definition outcome_history (o : ChainOutcome) : list StepLog :=
  match o with
  | ChainSuccess _ _ execution_history _ _ => execution_history
  | ChainFailure _ _ execution_history _ => execution_history
  end.

(** The ["total_steps"] entry of the ["performance_metrics"] of an
    outcome. *)
Definition outcome_total_steps (o : ChainOutcome) : nat :=
  match o with
  | ChainSuccess _ _ _ total_steps _ => total_steps
  | ChainFailure _ _ _ total_steps => total_steps
  end.

(** The attempts that the recorded results account for: each completed
    step took its [retry_count] failed attempts and the one that passed. *)
Definition attempts_of (results : list StepResult) : Z :=
  fold_right (fun r acc => retry_count r + 1 + acc) 0 results.

(** Every validation result recorded in [results] is a pass. *)
Definition all_passed (results : list StepResult) : Prop :=
  Forall (fun r => Forall (fun vr => passed vr = true) (validation_results r))
    results.

(** ** Further views of a parallel run *)

(** The block that the synthesis input gives to one successful task. *)
Definition analysis_block (str_upper : string -> string) (r : TaskResult)
  : string :=
  str_upper (name r) ++ ":" ++ newline ++ result r.

(** The text of the synthesis field after the synthesis call. *)
Definition synthesis_text (reply : pyresult string) : string :=
  match reply with
  | Returned synthesis_result => synthesis_result
  | Raised e => "Synthesis failed: " ++ str_exn e
  end.

(** ** The chain factories *)

(** The values stored in the outcome dictionary. *)
Inductive PyValue : Type :=
| VBool (b : bool)
| VStr (s : string)
| VResults (l : list StepResult)
| VHistory (l : list StepLog)
| VMetrics (total_steps : nat)
| VLog (l : list LogEntry).

(** The outcome of [execute_sequential_chain] as the dictionary it is,
    with the keys of the success shape or of the failure shape. *)
Definition outcome_dict (o : ChainOutcome) : pydict PyValue :=
  match o with
  | ChainSuccess results final_output execution_history total_steps log =>
      [("success", VBool true); ("results", VResults results);
       ("final_output", VStr final_output);
       ("execution_history", VHistory execution_history);
       ("performance_metrics", VMetrics total_steps);
       ("execution_log", VLog log)]
  | ChainFailure error partial_results execution_history total_steps =>
      [("success", VBool false); ("error", VStr error);
       ("partial_results", VResults partial_results);
       ("execution_history", VHistory execution_history);
       ("performance_metrics", VMetrics total_steps)]
  end.

(** Truth value of a stored value. *)
Definition truthy (v : PyValue) : bool :=
  match v with
  | VBool b => b
  | VStr s => negb (String.eqb s EmptyString)
  | VResults l => negb (is_empty l)
  | VHistory l => negb (is_empty l)
  | VMetrics _ => true
  | VLog l => negb (is_empty l)
  end.

(** The result of code that subscripts dictionaries: a value, or the
    [KeyError] of a missing key, or the [TypeError] of a value of the
    wrong kind. *)
Inductive lookup (A : Type) : Type :=
| Found (a : A)
| KeyError (key : string)
| TypeError.
Arguments Found {A} a.
Arguments KeyError {A} key.
Arguments TypeError {A}.

Definition lookup_bind {A B} (x : lookup A) (f : A -> lookup B) : lookup B :=
  match x with
  | Found a => f a
  | KeyError key => KeyError key
  | TypeError => TypeError
  end.

Notation "x <- e ;; k" := (lookup_bind e (fun x => k))
  (at level 61, e at next level, right associativity).

(** [d[key]] *)
Definition getitem (d : pydict PyValue) (key : string) : lookup PyValue :=
  match dict_get d key with
  | Some v => Found v
  | None => KeyError key
  end.

(** [d.get(key, default)] *)
Definition get_default (d : pydict PyValue) (key : string)
    (default : PyValue) : PyValue :=
  match dict_get d key with
  | Some v => v
  | None => default
  end.

(** A value used as a list of step results. *)
Definition as_results (v : PyValue) : lookup (list StepResult) :=
  match v with
  | VResults l => Found l
  | _ => TypeError
  end.

(** [new.join(s)] with [new] also before the first and after the last
    character: what [s.replace("", new)] gives. *)
Fixpoint intersperse (new s : string) : string :=
  match s with
  | EmptyString => new
  | String c rest => new ++ String c (intersperse new rest)
  end.

(** The scan of [str.replace] for a non-empty [old]: left to right, the
    occurrences taken not overlapping; [skip] characters of an occurrence
    just replaced are still to be passed over. *)
Fixpoint replace_from (old new : string) (skip : nat) (s : string) : string :=
  match s with
  | EmptyString => EmptyString
  | String c rest =>
      match skip with
      | S k => replace_from old new k rest
      | O =>
          if String.prefix old s
          then new ++ replace_from old new (String.length old - 1) rest
          else String c (replace_from old new 0 rest)
      end
  end.

(** [s.replace(old, new)] *)
Definition replace (s old new : string) : string :=
  match old with
  | EmptyString => intersperse new s
  | String _ _ => replace_from old new 0 s
  end.

(** The default of the [max_retries] argument of [__init__]. *)
Definition default_max_retries : Z := 3.

(** [PromptChainManager(llm)] for a callable that has been invoked [calls]
    times already. *)
Definition manager_after (calls : nat) : Manager := invoked new_manager calls.

(** The template of [complexity_prompt]. *)
Definition complexity_template : string :=
  String.concat newline
    ["Rate the complexity of this query from 1-10 and explain briefly why:";
     "            ";
     "            Query: {query}";
     "            ";
     "            Complexity rating (start with number):"].

(** The template of [simple_prompt]. *)
Definition simple_template : string :=
  String.concat newline
    ["Provide a direct, comprehensive answer to: {query}"].

(** The template of the first of [complex_steps]. *)
Definition breakdown_template : string :=
  String.concat newline
    ["Break down this complex query into 3-4 specific sub-questions:";
     "                    ";
     "                    Query: {input}";
     "                    ";
     "                    Sub-questions:"].

(** The template of the second of [complex_steps]. *)
Definition answer_template : string :=
  String.concat newline
    ["Answer each of the following sub-questions thoroughly:";
     "                    ";
     "                    Questions: {input}";
     "                    ";
     "                    Detailed answers:"].

(** The third of [complex_steps]: the part of the template before the user query. *)
Definition synthesize_head : string :=
  String.concat newline
    ["Synthesize these detailed answers into a cohesive response to the original query:";
     "                    ";
     "                    Original query: "].

(** The third of [complex_steps]: the part of the template after the user query. *)
Definition synthesize_tail : string :=
  String.concat newline
    [EmptyString;
     "                    ";
     "                    Detailed answers: {input}";
     "                    ";
     "                    Synthesized response:"].

(** The first of [pipeline_steps], before its placeholders are replaced. *)
Definition outline_template : string :=
  String.concat newline
    ["Research {topic} for {audience}. Create an outline with:";
     "                1. Key concepts to cover  ";
     "                2. 5 main sections";
     "                3. Supporting details for each section";
     "                ";
     "                Topic: {topic}";
     "                Audience: {audience}";
     "                ";
     "                Outline:"].

(** The second of [pipeline_steps], before its placeholder is replaced. *)
Definition content_template : string :=
  String.concat newline
    ["Using the following outline, write detailed content for a {content_type}.";
     "                Make each section comprehensive but accessible:";
     "                ";
     "                Outline: {input}";
     "                ";
     "                Detailed content:"].

(** The third of [pipeline_steps], before its placeholder is replaced. *)
Definition review_template : string :=
  String.concat newline
    ["Review the following content for {audience}. Improve:";
     "                1. Clarity and readability";
     "                2. Flow between sections  ";
     "                3. Engagement level";
     "                ";
     "                Original content: {input}";
     "                ";
     "                Refined content:"].

(** The dictionary returned by [content_pipeline]: the content shape or
    the error shape. *)
Inductive PipelineReturn : Type :=
| PipelineContent (outline detailed_content : string)
    (final_content execution_history : PyValue)
| PipelineError (error : PyValue).

Section ChainFactories.

(** The callable, and [int(text.split()[0])] as far as [assess_and_route]
    uses it: the integer that the first word of [text] denotes, [None]
    where the expression raises [IndexError] (no word) or [ValueError]
    (the word is not an integer literal), the two exceptions the caller
    catches. *)
Variable llm : nat -> string -> list (string * string) -> pyresult string.
Variable leading_int : string -> option Z.

(** [complex_steps] for the query [user_query]. *)
Definition complex_steps (user_query : string) : list Step :=
  [{| template := breakdown_template; validators := None; validator := None |};
   {| template := answer_template; validators := None; validator := None |};
   {| template := synthesize_head ++ user_query ++ synthesize_tail;
      validators := None; validator := None |}].

(** The score that the assessment is taken to give. *)
Definition complexity_score (complexity_assessment : string) : Z :=
  match leading_int complexity_assessment with
  | Some n => n
  | None => 5
  end.

(** [assess_and_route], the closure returned by
    [create_adaptive_complexity_chain(llm)], called when the callable has
    been invoked [calls] times; the number of invocations afterwards comes
    with the result.  Nothing here catches what the callable raises. *)
Definition assess_and_route (calls : nat) (user_query : string)
    (complexity_threshold : Z) : nat * pyresult PyValue :=
  match llm calls complexity_template [("query", user_query)] with
  | Raised e => ((calls + 1)%nat, Raised e)
  | Returned complexity_assessment =>
      if complexity_score complexity_assessment <=? complexity_threshold then
        ((calls + 2)%nat,
         match llm (calls + 1) simple_template [("query", user_query)] with
         | Returned answer => Returned (VStr answer)
         | Raised e => Raised e
         end)
      else
        let (manager, result) :=
          execute_sequential_chain llm default_max_retries
            (manager_after (calls + 1)) (complex_steps user_query) user_query in
        (invocations manager,
         Returned
           (get_default (outcome_dict result) "final_output"
              (VStr "Processing failed")))
  end.

(** [pipeline_steps] *)
Definition pipeline_steps (topic target_audience content_type : string)
  : list Step :=
  [{| template :=
        replace (replace outline_template "{topic}" topic)
          "{audience}" target_audience;
      validators := None; validator := None |};
   {| template := replace content_template "{content_type}" content_type;
      validators := None; validator := None |};
   {| template := replace review_template "{audience}" target_audience;
      validators := None; validator := None |}].

(** The dictionary built in the success branch of [content_pipeline], its
    values computed in the order of the keys. *)
Definition pipeline_content (result : pydict PyValue) : lookup PipelineReturn :=
  results <- lookup_bind (getitem result "results") as_results ;;
  outline <-
    (if (0 <? Z.of_nat (List.length results))
     then results <- lookup_bind (getitem result "results") as_results ;;
          match results with
          | r :: _ => Found (output r)
          | [] => TypeError
          end
     else Found EmptyString) ;;
  results <- lookup_bind (getitem result "results") as_results ;;
  detailed_content <-
    (if (1 <? Z.of_nat (List.length results))
     then results <- lookup_bind (getitem result "results") as_results ;;
          match results with
          | _ :: r :: _ => Found (output r)
          | _ => TypeError
          end
     else Found EmptyString) ;;
  final_content <- getitem result "final_output" ;;
  execution_history <- getitem result "history" ;;
  Found (PipelineContent outline detailed_content final_content
           execution_history).

(** [content_pipeline], the closure returned by
    [create_content_pipeline_chain(llm)], called when the callable has
    been invoked [calls] times. *)
Definition content_pipeline (calls : nat)
    (topic target_audience content_type : string)
  : nat * lookup PipelineReturn :=
  let (manager, chain_result) :=
    execute_sequential_chain llm default_max_retries (manager_after calls)
      (pipeline_steps topic target_audience content_type)
      ("Topic: " ++ topic) in
  let result := outcome_dict chain_result in
  (invocations manager,
   if match dict_get result "success" with
      | Some v => truthy v
      | None => false
      end
   then pipeline_content result
   else Found (PipelineError
                 (get_default result "error"
                    (VStr "Pipeline execution failed")))).

End ChainFactories.

(** A callable that times out on its first three invocations and is out
    of quota from then on. *)
Definition tiring_llm (ticket : nat) (template : string)
    (bindings : list (string * string)) : pyresult string :=
  if (ticket <? 3)%nat then Raised (CallableError "timeout")
  else Raised (CallableError "quota exceeded").

(** A reading of the leading integer that knows the single digits. *)
Definition digit_score (text : string) : option Z :=
  match text with
  | String c _ =>
      let n := nat_of_ascii c in
      if ((48 <=? n) && (n <=? 57))%nat then Some (Z.of_nat (n - 48)) else None
  | EmptyString => None
  end.

(** A callable that rates every query 8 and echoes otherwise. *)
Definition rating_llm (ticket : nat) (template : string)
    (bindings : list (string * string)) : pyresult string :=
  if String.eqb template complexity_template then Returned "8 - many parts"
  else echo_llm ticket template bindings.

(** ** The retry loop *)

Section SequentialChain.

Variable llm : nat -> string -> list (string * string) -> pyresult string.
Variable max_retries : Z.

Local Abbreviation retry_loop := (retry_loop llm max_retries).
Local Abbreviation run_attempt := (run_attempt llm).
Local Abbreviation for_steps := (for_steps llm max_retries).
Local Abbreviation attempt_raised := (attempt_raised llm).
Local Abbreviation chain_error := (chain_error max_retries).
Local Abbreviation loop_post := (loop_post llm max_retries).

(** An attempt logs itself, counts one invocation and ends as the reply to
    that invocation decides. *)
Lemma run_attempt_eq i s current_input retry_count m :
  run_attempt i s current_input retry_count m
  = (invoked
       (append_history m
          {| log_step := (i + 1)%nat; log_template := template s;
             input_preview := current_input; retry_attempt := retry_count |})
       1,
     generate_and_validate llm (invocations m) i s current_input).
Proof. reflexivity. Qed.

(** One unfolding of the loop. *)
Lemma retry_loop_eq i s current_input results retry_count m :
  retry_loop i s current_input results retry_count m =
  if retry_count <=? max_retries then
    match run_attempt i s current_input retry_count m with
    | (m1, AttemptPassed result ran) =>
        (record_step_timing m1 (i + 1)%nat,
         StepCompleted
           {| step := (i + 1)%nat; output := result;
              validation_results := ran; retry_count := retry_count;
              output_length := String.length result |})
    | (m1, AttemptRaised _ e) =>
        if retry_count + 1 >? max_retries then
          let (m2, error_result) :=
            fail_chain max_retries i results (retry_count + 1) (str_exn e) m1 in
          (m2, StepAborted error_result)
        else
          retry_loop i s current_input results (retry_count + 1)
            (if retry_count + 1 <=? max_retries
             then sleep m1 (retry_count + 1) else m1)
    end
  else (m, StepNotRun).
Proof.
  funelim (retry_loop i s current_input results retry_count m);
    rewrite run_attempt_eq; unfold generate_and_validate;
    cbn [invocations append_history] in *;
    repeat match goal with
           | E : ?c = _ |- context [if ?c then _ else _] => rewrite E
           | E : ?c = _ |- context [match ?c with _ => _ end] => rewrite E
           end;
    reflexivity.
Qed.

Lemma retry_loop_spec i s current_input results :
  forall (n : nat) retry_count m m' exit,
    Z.to_nat (max_retries + 1 - retry_count) = n ->
    retry_loop i s current_input results retry_count m = (m', exit) ->
    exists k : nat,
      invocations m' = (invocations m + k)%nat /\
      chain_history m'
        = (chain_history m
             ++ map (attempt_log i s current_input retry_count) (seq 0 k))%list /\
      loop_post i s current_input results retry_count m m' exit k.
Proof.
  induction n as [| n IH]; intros rc m m' exit Hn Hloop;
    rewrite retry_loop_eq in Hloop.
  - destruct (Z.leb_spec rc max_retries) as [Hle | Hgt]; [lia |].
    inversion Hloop; subst. exists 0%nat. simpl.
    rewrite Nat.add_0_r, app_nil_r. repeat split; lia.
  - destruct (Z.leb_spec rc max_retries) as [Hle | Hgt]; [| lia].
    rewrite run_attempt_eq in Hloop.
    destruct (generate_and_validate llm (invocations m) i s current_input)
      as [out ran | ran e] eqn:Hgv.
    + inversion Hloop; subst. exists 1%nat. simpl.
      repeat split; try reflexivity.
      * unfold attempt_log. rewrite Z.add_0_r. reflexivity.
      * exists 0%nat. rewrite Nat.add_0_r, Z.add_0_r.
        repeat split; try assumption; try reflexivity; try lia.
    + destruct (Z.gtb_spec (rc + 1) max_retries) as [Hlast | Hmore].
      * inversion Hloop; subst. exists 1%nat. simpl.
        repeat split; try reflexivity; try lia.
        -- unfold attempt_log. rewrite Z.add_0_r. reflexivity.
        -- intros j Hj. assert (j = 0)%nat by lia. subst.
           rewrite Nat.add_0_r. exists ran, e. exact Hgv.
        -- exists ran, e. rewrite Nat.add_0_r.
           repeat split; try assumption.
           replace (rc + 1 - 1) with max_retries by lia. reflexivity.
      * destruct (Z.leb_spec (rc + 1) max_retries) as [_ | Hno]; [| lia].
        apply IH in Hloop; [| lia].
        destruct Hloop as (k & Hinv & Hhist & Hpost).
        exists (S k). simpl in Hinv, Hhist.
        split; [lia |]. split.
        { rewrite Hhist, <- app_assoc. simpl. f_equal. f_equal.
          - unfold attempt_log. rewrite Z.add_0_r. reflexivity.
          - rewrite <- seq_shift, map_map. apply map_ext. intros j.
            unfold attempt_log. f_equal. lia. }
        destruct exit as [r | error_result |]; simpl in Hpost |- *.
        -- destruct Hpost as (k0 & -> & Hbefore & Hpass & Hstep & Hrc & Hbound
                              & Hlen & Htim & Hlog).
           exists (S k0). simpl in Hpass, Hbefore, Htim, Hlog.
           replace (invocations m + S k0)%nat
             with (invocations m + 1 + k0)%nat by lia.
           repeat split; try assumption; try lia.
           intros j Hj. destruct j as [| j].
           ++ rewrite Nat.add_0_r. exists ran, e. exact Hgv.
           ++ replace (invocations m + S j)%nat
                with (invocations m + 1 + j)%nat by lia.
              apply Hbefore. lia.
        -- destruct Hpost as (Hk & Hpos & Hall & ran' & e' & Hgv' & Herr
                              & Htim & Hlog).
           simpl in Hgv', Hall, Herr, Htim, Hlog.
           repeat split; try lia.
           ++ intros j Hj. destruct j as [| j].
              ** rewrite Nat.add_0_r. exists ran, e. exact Hgv.
              ** replace (invocations m + S j)%nat
                   with (invocations m + 1 + j)%nat by lia.
                 apply Hall. lia.
           ++ exists ran', e'.
              split; [| repeat split; assumption].
              rewrite <- Hgv'. f_equal. lia.
        -- destruct Hpost as (_ & _ & Hlt). lia.
Qed.

(** ** The loop over the steps *)

Lemma last_cons_default (A : Type) (a d : A) (l : list A) :
  last (a :: l) d = last l a.
Proof.
  revert a d. induction l as [| b l IH]; intros a d; [reflexivity |].
  change (last (a :: b :: l) d) with (last (b :: l) d).
  rewrite (IH b d). symmetry. apply IH.
Qed.

(** A chain over [pre ++ post] runs [pre] and, unless that returned from
    inside the loop, goes on with [post]. *)
Lemma for_steps_app pre post :
  forall i current_input results m,
    for_steps i (pre ++ post) current_input results m =
    match for_steps i pre current_input results m with
    | (m1, inl error_result) => (m1, inl error_result)
    | (m1, inr (input1, results1)) =>
        for_steps (i + List.length pre) post input1 results1 m1
    end.
Proof.
  induction pre as [| s pre IH]; intros i current_input results m; simpl.
  - rewrite Nat.add_0_r. reflexivity.
  - destruct (retry_loop i s current_input results 0 m) as [m1 [r | er |]];
      try reflexivity; rewrite IH;
      replace (i + 1 + List.length pre)%nat
        with (i + S (List.length pre))%nat by lia; reflexivity.
Qed.

(** A loop over the steps that runs to its end has appended the results
    of the steps it ran, in order. *)
Lemma for_steps_completed steps :
  forall i current_input results m m' input' results',
    for_steps i steps current_input results m = (m', inr (input', results')) ->
    exists new,
      results' = (results ++ new)%list /\
      input' = last (map output new) current_input /\
      Forall (fun r => 0 <= retry_count r <= max_retries) new /\
      (0 <= max_retries ->
       List.length new = List.length steps /\
       forall j r, nth_error new j = Some r -> step r = (i + j + 1)%nat).
Proof.
  induction steps as [| s rest IH];
    intros i current_input results m m' input' results' Hrun; simpl in Hrun.
  - inversion Hrun; subst. exists []. rewrite app_nil_r.
    repeat split; auto. intros [| j] r Hj; discriminate.
  - destruct (retry_loop i s current_input results 0 m)
      as [m1 [r | er |]] eqn:Hloop; [| discriminate |].
    + destruct (retry_loop_spec _ _ _ _ _ _ _ _ _ eq_refl Hloop)
        as (k & _ & _ & k0 & _ & _ & _ & Hstep & Hrc & Hbound & _).
      apply IH in Hrun. destruct Hrun as (new & -> & -> & Hall & Hlen).
      exists (r :: new). rewrite <- app_assoc. simpl map.
      rewrite last_cons_default.
      split; [reflexivity |]. split; [reflexivity |].
      split; [constructor; [lia | exact Hall] |].
      intros Hpos. destruct (Hlen Hpos) as [Hsame Hnum]. split.
      * simpl. rewrite Hsame. reflexivity.
      * intros [| j] r' Hj; simpl in Hj.
        -- inversion Hj; subst. lia.
        -- rewrite (Hnum _ _ Hj). lia.
    + destruct (retry_loop_spec _ _ _ _ _ _ _ _ _ eq_refl Hloop)
        as (k & _ & _ & _ & _ & Hneg).
      apply IH in Hrun. destruct Hrun as (new & -> & -> & Hall & _).
      exists new. repeat split; try assumption; lia.
Qed.

(** The step [s] did not end the run and the rest of the steps failed
    after a prefix [pre]: the whole run failed after the prefix [s :: pre]. *)
Ltac prefix_grows IH Hrun Hloop s :=
  apply IH in Hrun;
  destruct Hrun as (pre & s' & post & m2 & input2 & results2 & -> & Hpre & Hs');
  exists (s :: pre), s', post, m2, input2, results2; simpl;
  rewrite Hloop; repeat split; try assumption;
  match goal with
  | |- context [(?i + S (List.length pre))%nat] =>
      replace (i + S (List.length pre))%nat
        with (i + 1 + List.length pre)%nat by lia
  end;
  exact Hs'.

(** A loop over the steps that returned from inside has run a prefix of
    the steps to the end and then exhausted the attempts of the next
    step. *)
Lemma for_steps_failed steps :
  forall i current_input results m m' error_result,
    for_steps i steps current_input results m = (m', inl error_result) ->
    exists pre s post m1 input1 results1,
      steps = (pre ++ s :: post)%list /\
      for_steps i pre current_input results m = (m1, inr (input1, results1)) /\
      retry_loop (i + List.length pre) s input1 results1 0 m1
        = (m', StepAborted error_result).
Proof.
  induction steps as [| s rest IH];
    intros i current_input results m m' error_result Hrun; simpl in Hrun;
    [discriminate |].
  destruct (retry_loop i s current_input results 0 m)
    as [m1 [r | er |]] eqn:Hloop.
  - prefix_grows IH Hrun Hloop s.
  - inversion Hrun; subst.
    exists [], s, rest, m, current_input, results. simpl.
    rewrite Nat.add_0_r. auto.
  - prefix_grows IH Hrun Hloop s.
Qed.

(** The entries of one step, then the entries of the steps after it. *)
Ltac history_grows IH Hrun Hhist Hmine :=
  apply IH in Hrun; destruct Hrun as (added & Hh & Hall);
  eexists; split; [rewrite Hh, Hhist, <- app_assoc; reflexivity |];
  apply Forall_app; split; [exact Hmine |];
  eapply Forall_impl; [| exact Hall]; simpl; intros l Hl; lia.

(** Whatever the loop over the steps does, the entries it adds to the
    history belong to the steps it was given. *)
Lemma for_steps_history steps :
  forall i current_input results m m' out,
    for_steps i steps current_input results m = (m', out) ->
    exists added,
      chain_history m' = (chain_history m ++ added)%list /\
      Forall (fun l => (i < log_step l <= i + List.length steps)%nat) added.
Proof.
  induction steps as [| s rest IH];
    intros i current_input results m m' out Hrun; simpl in Hrun.
  - inversion Hrun; subst. exists []. rewrite app_nil_r. auto.
  - destruct (retry_loop i s current_input results 0 m)
      as [m1 ex] eqn:Hloop.
    destruct (retry_loop_spec _ _ _ _ _ _ _ _ _ eq_refl Hloop) as (k & _ & Hhist & _).
    assert (Hmine : Forall (fun l => (i < log_step l <= i + S (List.length rest))%nat)
                      (map (attempt_log i s current_input 0) (seq 0 k))).
    { apply Forall_forall. intros l Hl. apply in_map_iff in Hl.
      destruct Hl as (j & <- & _). simpl. lia. }
    destruct ex as [r | er |].
    + history_grows IH Hrun Hhist Hmine.
    + inversion Hrun; subst. eexists. split; [exact Hhist | exact Hmine].
    + history_grows IH Hrun Hhist Hmine.
Qed.

(** ** The validators of one attempt *)

Lemma run_validators_spec i result :
  forall vs acc ran exn,
    run_validators i vs result acc = (ran, exn) ->
    exists new,
      ran = (acc ++ new)%list /\
      Forall2 (records result) (firstn (List.length new) vs) new /\
      match exn with
      | None =>
          List.length new = List.length vs /\
          Forall (fun vr => passed vr = true) new
      | Some e => exists n, stopped_at i vs result new e n
      end.
Proof.
  induction vs as [| [vname vfunc] rest IH]; intros acc ran exn Hrun;
    simpl in Hrun.
  - inversion Hrun; subst. exists []. rewrite app_nil_r.
    repeat split; constructor.
  - destruct (vfunc result) as [[|] | e] eqn:Hv; simpl in Hrun.
    + apply IH in Hrun. destruct Hrun as (new & -> & Hrec & Hexit).
      exists ({| validator_name := vname; passed := true |} :: new).
      rewrite <- app_assoc. split; [reflexivity |]. split.
      * simpl. constructor; [split; [reflexivity | exact Hv] | exact Hrec].
      * destruct exn as [e |].
        -- destruct Hexit as (n & vn & vf & Hnth & Hbefore & Hwhy).
           exists (S n), vn, vf. split; [exact Hnth |]. split.
           ++ simpl. constructor; [reflexivity | exact Hbefore].
           ++ simpl. destruct Hwhy as [(Hf & Hl & He) | (Hr & Hl)];
                [left | right]; repeat split; auto.
        -- destruct Hexit as [Hlen Hall]. split; [simpl; lia |].
           constructor; [reflexivity | exact Hall].
    + inversion Hrun; subst.
      exists [{| validator_name := vname; passed := false |}].
      split; [reflexivity |]. split.
      * simpl. constructor; [split; [reflexivity | exact Hv] | constructor].
      * exists 0%nat, vname, vfunc. split; [reflexivity |].
        split; [constructor |]. left. repeat split. exact Hv.
    + inversion Hrun; subst. exists []. rewrite app_nil_r.
      split; [reflexivity |]. split; [constructor |].
      exists 0%nat, vname, vfunc. split; [reflexivity |].
      split; [constructor |]. right. split; [exact Hv | reflexivity].
Qed.

(** ** Properties of a sequential run *)

(** C1.  A sequential run with a maximum-retries count of at least 0 that
    returns success has one result per step, the result at position [i]
    carries step number [i + 1], and [final_output] is the output of the
    last result (the initial input when there is no step at all). *)
Theorem sequential_success_results
    m chain_steps initial_input m' results final_output history total log :
  0 <= max_retries ->
  execute_sequential_chain llm max_retries m chain_steps initial_input
    = (m', ChainSuccess results final_output history total log) ->
  List.length results = List.length chain_steps /\
  (forall i r, nth_error results i = Some r -> step r = (i + 1)%nat) /\
  final_output = last (map output results) initial_input.
Proof.
  intros Hpos Hrun. unfold execute_sequential_chain in Hrun.
  destruct (for_steps 0 chain_steps initial_input [] m)
    as [m1 [er | [input1 results1]]] eqn:Hfor.
  - pose proof (for_steps_failed _ _ _ _ _ _ _ Hfor)
      as (pre & s & post & m2 & i2 & r2 & _ & _ & Hloop).
    destruct (retry_loop_spec _ _ _ _ _ _ _ _ _ eq_refl Hloop)
      as (k & _ & _ & _ & _ & _ & ran & e & _ & Her & _).
    inversion Hrun; subst. discriminate.
  - inversion Hrun; subst.
    destruct (for_steps_completed _ _ _ _ _ _ _ _ Hfor)
      as (new & Hres & Hlast & _ & Hlen).
    simpl in Hres. subst results. destruct (Hlen Hpos) as [Hsame Hnum].
    repeat split; assumption.
Qed.

(** C9.  An empty step list gives a success outcome with no result and
    the initial input as [final_output]. *)
Theorem empty_chain_returns_input m initial_input :
  snd (execute_sequential_chain llm max_retries m [] initial_input)
  = ChainSuccess [] initial_input (chain_history m)
      (List.length (step_timings m))
      (execution_log m ++ [LogSuccess 0])%list.
Proof. reflexivity. Qed.

(** C2.  When the steps before step [k] complete and every one of the
    [max_retries + 1] attempts of step [k] ends in the [except] branch,
    the run returns a failure whose partial results are the [k - 1]
    results of the steps before [k], whose error message carries the
    number [k], and nothing is attempted after step [k]: the last
    invocation of the callable is the last attempt of step [k] and the
    history has no entry of a later step. *)
Theorem sequential_failure_at_step
    m pre s post initial_input m1 input1 results1 :
  0 <= max_retries ->
  for_steps 0 pre initial_input [] m = (m1, inr (input1, results1)) ->
  (forall j, (j <= Z.to_nat max_retries)%nat ->
             attempt_raised (invocations m1 + j) (List.length pre) s input1) ->
  let k := (List.length pre + 1)%nat in
  exists m' e added total,
    execute_sequential_chain llm max_retries m (pre ++ s :: post) initial_input
      = (m',
         ChainFailure
           ("Chain failed at step " ++ str_nat k ++ " after "
              ++ str_int (max_retries + 1) ++ " attempts: " ++ str_exn e)
           results1 (chain_history m') total) /\
    List.length results1 = (k - 1)%nat /\
    (forall i r, nth_error results1 i = Some r -> step r = (i + 1)%nat) /\
    invocations m' = (invocations m1 + Z.to_nat (max_retries + 1))%nat /\
    chain_history m' = (chain_history m ++ added)%list /\
    Forall (fun l => (log_step l <= k)%nat) added.
Proof.
  intros Hpos Hpre Hfail k. unfold execute_sequential_chain.
  rewrite for_steps_app, Hpre. simpl for_steps.
  destruct (retry_loop (List.length pre) s input1 results1 0 m1)
    as [m' ex] eqn:Hloop.
  destruct (retry_loop_spec _ _ _ _ _ _ _ _ _ eq_refl Hloop)
    as (n & Hinv & Hhist & Hpost).
  destruct (for_steps_completed _ _ _ _ _ _ _ _ Hpre)
    as (new & Hres & _ & _ & Hlen).
  destruct (Hlen Hpos) as [Hsame Hnum]. simpl in Hres. subst results1.
  destruct (for_steps_history _ _ _ _ _ _ _ Hpre) as (before & Hbefore & Hold).
  destruct ex as [r | error_result |]; simpl in Hpost.
  - destruct Hpost as (k0 & _ & _ & Hpass & _ & _ & Hbound & _).
    destruct (Hfail k0) as (ran & e & Hraised); [lia |].
    rewrite Hraised in Hpass. discriminate.
  - destruct Hpost as (Hn & _ & _ & ran & e & _ & -> & _ & _).
    exists m', e. eexists. eexists. split; [reflexivity |].
    split; [unfold k; lia |]. split; [exact Hnum |].
    split; [lia |]. split.
    + rewrite Hhist, Hbefore, <- app_assoc. reflexivity.
    + apply Forall_app. split.
      * eapply Forall_impl; [| exact Hold]. simpl. unfold k. intros l Hl. lia.
      * apply Forall_forall. intros l Hl. apply in_map_iff in Hl.
        destruct Hl as (j & <- & _). simpl. unfold k. lia.
  - destruct Hpost as (_ & _ & Hneg). lia.
Qed.



(** C4, as amended.  For a step that carries named validators, an attempt
    whose generation call raises has failed without running a validator.
    Otherwise the validators run in the order of the dictionary, each on
    the raw output, and every one that returns is recorded with its
    verdict; the attempt passes exactly when all of them have run and
    returned true, with one recorded pair per validator; it fails when
    some validator returns false, and then the loop has stopped at the
    first validator that returned false or raised, without running the
    later ones. *)
Theorem validators_run_in_order ticket i s current_input vs :
  validators s = Some vs ->
  let exit := generate_and_validate llm ticket i s current_input in
  (forall e,
      llm ticket (template s) [("input", current_input)] = Raised e ->
      exit = AttemptRaised [] e) /\
  (forall result,
      llm ticket (template s) [("input", current_input)] = Returned result ->
      Forall2 (records result)
        (firstn (List.length (attempt_ran exit)) vs) (attempt_ran exit) /\
      ((exists validator_name validator_func,
           In (validator_name, validator_func) vs /\
           validator_func result = Returned false) ->
       exists ran e, exit = AttemptRaised ran e) /\
      (forall out ran,
          exit = AttemptPassed out ran ->
          out = result /\
          map validator_name ran = dict_keys vs /\
          Forall (fun vr => passed vr = true) ran) /\
      (forall ran e,
          exit = AttemptRaised ran e ->
          exists n, stopped_at i vs result ran e n) /\
      (Forall (fun item => snd item result = Returned true) vs ->
       exists ran, exit = AttemptPassed result ran)).
Proof.
  intros Hvs exit. subst exit.
  unfold generate_and_validate, validate_reply. split.
  - intros e ->. reflexivity.
  - intros result ->. unfold validate. rewrite Hvs.
    destruct (run_validators i vs result []) as [ran exn] eqn:Hrun.
    destruct (run_validators_spec _ _ _ _ _ _ Hrun)
      as (new & Hran & Hrec & Hexit).
    simpl in Hran. subst new.
    assert (Hnames : List.length ran = List.length vs ->
                     map validator_name ran = dict_keys vs).
    { intros Hlen. rewrite Hlen, firstn_all in Hrec. unfold dict_keys.
      clear - Hrec. induction Hrec as [| item vr vs' ran' [Hn _] _ IH];
        [reflexivity |]. simpl. rewrite Hn, IH. reflexivity. }
    destruct exn as [e |]; simpl.
    + split; [exact Hrec |]. split; [eauto |].
      split; [discriminate |]. split.
      * intros ran' e' Heq. inversion Heq; subst. exact Hexit.
      * intros Htrue. exfalso.
        destruct Hexit as (n & vn & vf & Hnth & _ & Hwhy).
        apply nth_error_In in Hnth.
        rewrite Forall_forall in Htrue. specialize (Htrue _ Hnth).
        simpl in Htrue.
        destruct Hwhy as [(Hf & _) | (Hr & _)]; congruence.
    + destruct Hexit as [Hlen Hall]. split; [exact Hrec |]. split.
      * intros (vn & vf & Hin & Hfalse). exfalso.
        rewrite Hlen, firstn_all in Hrec. clear - Hrec Hall Hin Hfalse.
        induction Hrec as [| item vr vs' ran' [_ Hv] _ IH]; [contradiction |].
        inversion Hall; subst. destruct Hin as [-> | Hin]; [| auto].
        simpl in Hv. congruence.
      * split; [| split; [discriminate | eauto]].
        intros out ran' Heq. inversion Heq; subst. auto.
Qed.

End SequentialChain.

(** ** Dictionaries *)

Lemma dict_set_keys {V} (d : pydict V) k' v k :
  In k (dict_keys (dict_set d k' v)) <-> k = k' \/ In k (dict_keys d).
Proof.
  induction d as [| [k0 v0] d IH]; simpl.
  - intuition.
  - destruct (String.eqb_spec k0 k') as [-> | Hne]; simpl.
    + intuition.
    + unfold dict_keys in IH. rewrite IH. intuition.
Qed.

Lemma dict_set_fresh {V} (d : pydict V) k v :
  ~ In k (dict_keys d) -> dict_set d k v = (d ++ [(k, v)])%list.
Proof.
  induction d as [| [k0 v0] d IH]; simpl; intros Hfresh; [reflexivity |].
  destruct (String.eqb_spec k0 k) as [-> | Hne].
  - exfalso. apply Hfresh. left. reflexivity.
  - rewrite IH; [reflexivity |]. intros Hin. apply Hfresh. right. exact Hin.
Qed.

Lemma dict_set_length {V} (d : pydict V) k v :
  (List.length (dict_set d k v) <= S (List.length d))%nat.
Proof.
  induction d as [| [k0 v0] d IH]; simpl; [lia |].
  destruct (String.eqb k0 k); simpl; lia.
Qed.

Lemma dict_get_nodup {V} (d : pydict V) k v :
  NoDup (dict_keys d) -> In (k, v) d -> dict_get d k = Some v.
Proof.
  induction d as [| [k0 v0] d IH]; simpl; intros Hnd Hin; [contradiction |].
  inversion Hnd as [| ? ? Hfresh Hrest]; subst.
  destruct Hin as [Heq | Hin].
  - inversion Heq; subst. rewrite String.eqb_refl. reflexivity.
  - destruct (String.eqb_spec k0 k) as [-> | Hne]; [| auto].
    exfalso. apply Hfresh. change k with (fst (k, v)). apply in_map. exact Hin.
Qed.

Section DictComprehension.

Context {A V : Type}.
Variable keep : A -> bool.
Variable key : A -> string.
Variable value : A -> V.

Local Abbreviation add := (dict_add keep key value).

Lemma add_eq d r :
  add d r = if keep r then dict_set d (key r) (value r) else d.
Proof. reflexivity. Qed.

Lemma fold_add_keys l :
  forall acc k,
    In k (dict_keys (fold_left add l acc)) <->
    In k (dict_keys acc) \/ exists r, In r l /\ keep r = true /\ key r = k.
Proof.
  induction l as [| r l IH]; intros acc k; simpl.
  - split; [auto | intros [H | (r & [] & _)]; exact H].
  - rewrite IH. rewrite (add_eq acc r). destruct (keep r) eqn:Hkeep.
    + rewrite dict_set_keys. split.
      * intros [[-> | H] | (r' & Hin & Hk & Hkey)]; eauto 7.
      * intros [H | (r' & [<- | Hin] & Hk & Hkey)]; eauto 7.
    + split.
      * intros [H | (r' & Hin & Hk & Hkey)]; eauto 7.
      * intros [H | (r' & [<- | Hin] & Hk & Hkey)]; eauto 7. congruence.
Qed.

Lemma fold_add_length l :
  forall acc,
    (List.length (fold_left add l acc) <= List.length acc + List.length l)%nat.
Proof.
  induction l as [| r l IH]; intros acc; simpl; [lia |].
  specialize (IH (add acc r)). rewrite (add_eq acc r) in *.
  destruct (keep r); [pose proof (dict_set_length acc (key r) (value r)) |]; lia.
Qed.

Lemma fold_add_nodup l :
  forall acc,
    NoDup (dict_keys acc ++ map key l) ->
    fold_left add l acc
    = (acc ++ map (fun r => (key r, value r)) (filter keep l))%list.
Proof.
  induction l as [| r l IH]; intros acc Hnd; simpl.
  - rewrite app_nil_r. reflexivity.
  - simpl in Hnd. pose proof (NoDup_remove_2 _ _ _ Hnd) as Hfresh.
    pose proof (NoDup_remove_1 _ _ _ Hnd) as Hrest.
    rewrite (add_eq acc r). destruct (keep r).
    + rewrite dict_set_fresh
        by (intros Hin; apply Hfresh; apply in_or_app; left; exact Hin).
      rewrite IH.
      * rewrite <- app_assoc. reflexivity.
      * unfold dict_keys. rewrite map_app. simpl. rewrite <- app_assoc.
        exact Hnd.
    + apply IH. exact Hrest.
Qed.

(** The keys of a comprehension are the keys of the items kept. *)
Lemma dict_comprehension_keys l k :
  In k (dict_keys (dict_comprehension keep key value l)) <->
  exists r, In r l /\ keep r = true /\ key r = k.
Proof.
  unfold dict_comprehension. rewrite fold_add_keys. simpl.
  intuition.
Qed.

Lemma dict_comprehension_length l :
  (List.length (dict_comprehension keep key value l) <= List.length l)%nat.
Proof.
  unfold dict_comprehension. apply (fold_add_length l []).
Qed.

(** Over items with distinct keys a comprehension keeps the kept items
    as they are, in order. *)
Lemma dict_comprehension_nodup l :
  NoDup (map key l) ->
  dict_comprehension keep key value l
  = map (fun r => (key r, value r)) (filter keep l).
Proof.
  intros Hnd. unfold dict_comprehension. fold add.
  rewrite fold_add_nodup; [reflexivity | exact Hnd].
Qed.

Lemma dict_comprehension_none l :
  Forall (fun r => keep r = false) l ->
  forall acc, fold_left add l acc = acc.
Proof.
  induction l as [| r l IH]; intros Hall acc; simpl; [reflexivity |].
  inversion Hall as [| ? ? Hr Hl]; subst.
  rewrite (add_eq acc r), Hr. apply IH. exact Hl.
Qed.

End DictComprehension.

(** ** Parallel runs *)

Section ParallelChains.

Variable llm : nat -> string -> list (string * string) -> pyresult string.
Variable str_upper : string -> string.

Local Abbreviation run_single_prompt := (run_single_prompt llm).
Local Abbreviation submit_all := (submit_all llm).
Local Abbreviation execute_parallel_chains :=
  (execute_parallel_chains llm str_upper).

Lemma run_single_prompt_name document ticket prompt_name template :
  name (run_single_prompt document ticket prompt_name template) = prompt_name.
Proof.
  unfold run_single_prompt.
  destruct (llm ticket template [("document", document)]); reflexivity.
Qed.

Lemma submit_all_names document items :
  forall ticket, map name (submit_all document ticket items) = dict_keys items.
Proof.
  induction items as [| [prompt_name template] rest IH]; intros ticket; simpl;
    [reflexivity |].
  rewrite run_single_prompt_name, IH. reflexivity.
Qed.

Lemma submit_all_length document items :
  forall ticket,
    List.length (submit_all document ticket items) = List.length items.
Proof.
  induction items as [| [prompt_name template] rest IH]; intros ticket; simpl;
    [reflexivity |].
  rewrite IH. reflexivity.
Qed.

(** The entry of a task is what its own worker computed from its own
    invocation. *)
Lemma submit_all_nth document items :
  forall ticket q prompt_name template,
    nth_error items q = Some (prompt_name, template) ->
    nth_error (submit_all document ticket items) q
    = Some (run_single_prompt document (ticket + q) prompt_name template).
Proof.
  induction items as [| [n0 t0] rest IH];
    intros ticket [| q] prompt_name template Hq; simpl in Hq; try discriminate.
  - inversion Hq; subst. simpl. rewrite Nat.add_0_r. reflexivity.
  - simpl. rewrite (IH (ticket + 1)%nat q _ _ Hq). do 2 f_equal. lia.
Qed.

(** A run over at least one task gets its pool and returns the outcome
    dictionary. *)
Lemma execute_parallel_chains_nonempty
    m prompt_templates document synthesis_template :
  prompt_templates <> [] ->
  execute_parallel_chains m prompt_templates document synthesis_template =
  let parallel_results :=
    submit_all document (invocations m) prompt_templates in
  let successful_results :=
    dict_comprehension task_success name result parallel_results in
  let ms :=
    synthesize llm str_upper (invoked m (List.length prompt_templates))
      synthesis_template successful_results document in
  (fst ms,
   Returned
     {| success := true;
        parallel_results :=
          dict_comprehension (fun _ => true) name result parallel_results;
        successful_count := dict_len successful_results;
        failed_count :=
          Z.of_nat (List.length parallel_results)
            - dict_len successful_results;
        synthesis := snd ms;
        execution_details := parallel_results;
        max_workers_used := Z.min (dict_len prompt_templates) 4 |}).
Proof.
  intros Hne. unfold execute_parallel_chains, ThreadPoolExecutor.
  assert (Hlen : 1 <= dict_len prompt_templates).
  { unfold dict_len. destruct prompt_templates; [contradiction | simpl; lia]. }
  destruct (Z.leb_spec (Z.min (dict_len prompt_templates) 4) 0) as [Hle | _];
    [lia |].
  simpl. destruct (synthesize llm str_upper _ _ _ _). reflexivity.
Qed.

Lemma filter_all (A : Type) (l : list A) : filter (fun _ => true) l = l.
Proof. induction l as [| a l IH]; simpl; [| rewrite IH]; reflexivity. Qed.

(** Over distinct task names the result mapping has one item per task,
    in the order of submission. *)
Lemma results_dict_nodup document ticket items :
  NoDup (dict_keys items) ->
  dict_comprehension (fun _ => true) name result
    (submit_all document ticket items)
  = map (fun r => (name r, result r)) (submit_all document ticket items).
Proof.
  intros Hnd. rewrite dict_comprehension_nodup.
  - rewrite filter_all. reflexivity.
  - rewrite submit_all_names. exact Hnd.
Qed.

Lemma results_dict_get document ticket items q prompt_name template :
  NoDup (dict_keys items) ->
  nth_error items q = Some (prompt_name, template) ->
  dict_get
    (dict_comprehension (fun _ => true) name result
       (submit_all document ticket items)) prompt_name
  = Some (result (run_single_prompt document (ticket + q) prompt_name template)).
Proof.
  intros Hnd Hq. rewrite results_dict_nodup by exact Hnd.
  apply dict_get_nodup.
  - unfold dict_keys. rewrite map_map. simpl.
    change (map (fun r => name r)) with (map name).
    rewrite submit_all_names. exact Hnd.
  - apply (submit_all_nth document _ ticket) in Hq.
    apply nth_error_In in Hq.
    apply (in_map (fun r => (name r, result r))) in Hq.
    rewrite run_single_prompt_name in Hq. exact Hq.
Qed.

(** When the invocation of every task raises, every entry is a failed
    one. *)
Lemma submit_all_failed document items :
  forall ticket,
    (forall p prompt_name template,
        nth_error items p = Some (prompt_name, template) ->
        exists e,
          llm (ticket + p) template [("document", document)] = Raised e) ->
    Forall (fun r => task_success r = false)
      (submit_all document ticket items).
Proof.
  induction items as [| [n0 t0] rest IH]; intros ticket Hall; simpl;
    constructor.
  - destruct (Hall 0%nat n0 t0 eq_refl) as (e & He).
    rewrite Nat.add_0_r in He. unfold run_single_prompt. rewrite He.
    reflexivity.
  - apply IH. intros p prompt_name template Hp.
    destruct (Hall (S p) prompt_name template Hp) as (e & He).
    exists e. rewrite <- He. f_equal. lia.
Qed.

(** ** Properties of a parallel run *)

(** C5.  A run over an empty task mapping raises: the pool is asked for
    [min(0, 4) = 0] workers and refuses. *)
Theorem empty_mapping_raises m document synthesis_template :
  execute_parallel_chains m [] document synthesis_template
  = (m, Raised (ValueError "max_workers must be greater than 0")).
Proof. reflexivity. Qed.

(** C6.  The run over the empty task mapping is a run in which zero tasks
    succeed: no task is submitted and [successful_results] is empty.  It
    makes no invocation of the callable, so no synthesis call either; but
    it returns no outcome whose synthesis field could say so: with or
    without a synthesis template it raises the [ValueError] of the pool.
    (Over at least one task such a run does return, with the synthesis
    field [None]: [no_synthesis_without_success].) *)
Theorem zero_tasks_run_raises m document synthesis_template :
  let run := execute_parallel_chains m [] document synthesis_template in
  dict_comprehension task_success name result
    (submit_all document (invocations m) []) = [] /\
  invocations (fst run) = invocations m /\
  snd run = Raised (ValueError "max_workers must be greater than 0").
Proof.
  intros run. subst run. repeat split.
Qed.

(** C10.  Every run over at least one task returns an outcome whose
    top-level success flag is true, whatever the tasks did. *)
Theorem parallel_success_flag m prompt_templates document synthesis_template :
  prompt_templates <> [] ->
  exists o,
    snd (execute_parallel_chains m prompt_templates document
           synthesis_template) = Returned o /\
    success o = true.
Proof.
  intros Hne. rewrite execute_parallel_chains_nonempty by exact Hne.
  simpl. eexists. split; reflexivity.
Qed.

(** C7.  In the outcome returned by a parallel run the keys of the result
    mapping are exactly the task names that were supplied, and the two
    counts are not negative and add up to the number of tasks; over
    distinct task names the keys come in the order of the tasks and
    [successful_count] counts the entries that succeeded.  A run over at
    least one task does return an outcome. *)
Theorem parallel_keys_and_counts
    m prompt_templates document synthesis_template :
  (prompt_templates <> [] ->
   exists o,
     snd (execute_parallel_chains m prompt_templates document
            synthesis_template) = Returned o) /\
  (forall o,
      snd (execute_parallel_chains m prompt_templates document
             synthesis_template) = Returned o ->
      (forall k, In k (dict_keys (parallel_results o))
                 <-> In k (dict_keys prompt_templates)) /\
      successful_count o + failed_count o = dict_len prompt_templates /\
      0 <= successful_count o /\
      0 <= failed_count o /\
      (NoDup (dict_keys prompt_templates) ->
       dict_keys (parallel_results o) = dict_keys prompt_templates /\
       successful_count o
       = Z.of_nat (List.length (filter task_success (execution_details o))))).
Proof.
  destruct prompt_templates as [| item rest] eqn:Htasks.
  - split; [intros Hne; contradiction |]. intros o Hrun. discriminate.
  - rewrite <- Htasks.
    assert (Hne : prompt_templates <> []) by (rewrite Htasks; discriminate).
    rewrite execute_parallel_chains_nonempty by exact Hne.
    simpl. split; [eauto |]. intros o Ho. inversion Ho; subst o; simpl.
    clear Ho.
    pose proof (dict_comprehension_length task_success name result
                  (submit_all document (invocations m) prompt_templates))
      as Hle.
    rewrite submit_all_length in *. unfold dict_len.
    split; [| repeat split; try lia].
    + intros k. rewrite dict_comprehension_keys.
      rewrite <- (submit_all_names document prompt_templates (invocations m)).
      rewrite in_map_iff. split.
      * intros (r & Hin & _ & Hk). eauto.
      * intros (r & Hk & Hin). eauto.
    + rewrite results_dict_nodup by assumption.
      unfold dict_keys. rewrite map_map. simpl.
      apply submit_all_names.
    + rewrite dict_comprehension_nodup
        by (rewrite submit_all_names; assumption).
      rewrite length_map. reflexivity.
Qed.

(** Runs in which every task fails.  When the invocation of every task
    raises, the run makes one invocation per task and none for the
    synthesis, and the outcome it returns, as it does over at least one
    task, has no synthesis ([None]), no successful task and as many failed
    tasks as were submitted. *)
Lemma no_synthesis_without_success
    m prompt_templates document synthesis_template :
  (forall p prompt_name template,
      nth_error prompt_templates p = Some (prompt_name, template) ->
      exists e,
        llm (invocations m + p) template [("document", document)] = Raised e) ->
  invocations (fst (execute_parallel_chains m prompt_templates document
                      synthesis_template))
  = (invocations m + List.length prompt_templates)%nat /\
  (prompt_templates <> [] ->
   exists o,
     snd (execute_parallel_chains m prompt_templates document
            synthesis_template) = Returned o) /\
  (forall o,
      snd (execute_parallel_chains m prompt_templates document
             synthesis_template) = Returned o ->
      synthesis o = None /\
      successful_count o = 0 /\
      failed_count o = dict_len prompt_templates).
Proof.
  intros Hfail. destruct prompt_templates as [| item rest] eqn:Htasks.
  - simpl. split; [lia |]. split; [intros Hne; contradiction |].
    intros o Hrun. discriminate.
  - rewrite <- Htasks in *.
    assert (Hne : prompt_templates <> []) by (rewrite Htasks; discriminate).
    rewrite execute_parallel_chains_nonempty by exact Hne.
    apply submit_all_failed in Hfail.
    assert (Hnone : dict_comprehension task_success name result
                      (submit_all document (invocations m) prompt_templates)
                    = []).
    { unfold dict_comprehension. apply dict_comprehension_none. exact Hfail. }
    simpl. rewrite Hnone. unfold synthesize.
    assert (Hskip : forall t : string,
               negb (String.eqb t EmptyString)
               && negb (is_empty (@nil (string * string)))
               = false) by (intros t; apply andb_false_r).
    destruct synthesis_template as [t |]; [rewrite Hskip |]; simpl.
    all: split; [reflexivity |]; split; [eauto |].
    all: intros o Ho; inversion Ho; subst o; simpl.
    all: rewrite submit_all_length; unfold dict_len; simpl.
    all: repeat split; lia.
Qed.

(** C8.  Over distinct task names, a task whose invocation raises is
    recorded as a failed entry whose result text is [Error: ] followed by
    the message of the exception; the run still returns an outcome with
    one entry per task, and the entry and result of every other task are
    those computed from that task's own invocation alone. *)
Theorem failed_task_is_isolated
    m prompt_templates document synthesis_template p b template_b e :
  NoDup (dict_keys prompt_templates) ->
  nth_error prompt_templates p = Some (b, template_b) ->
  llm (invocations m + p) template_b [("document", document)] = Raised e ->
  exists o,
    snd (execute_parallel_chains m prompt_templates document
           synthesis_template) = Returned o /\
    dict_get (parallel_results o) b = Some ("Error: " ++ str_exn e) /\
    nth_error (execution_details o) p
    = Some {| name := b; result := "Error: " ++ str_exn e;
              task_success := false; task_output_length := None;
              task_error := Some (str_exn e) |} /\
    List.length (execution_details o) = List.length prompt_templates /\
    forall q a template_a,
      q <> p ->
      nth_error prompt_templates q = Some (a, template_a) ->
      nth_error (execution_details o) q
      = Some (run_single_prompt document (invocations m + q) a template_a) /\
      dict_get (parallel_results o) a
      = Some (result (run_single_prompt document (invocations m + q)
                        a template_a)).
Proof.
  intros Hnd Hp Hraise.
  assert (Hne : prompt_templates <> [])
    by (intros ->; destruct p; discriminate).
  rewrite execute_parallel_chains_nonempty by exact Hne.
  simpl. eexists. split; [reflexivity |]. simpl.
  assert (Hb : run_single_prompt document (invocations m + p) b template_b
               = {| name := b; result := "Error: " ++ str_exn e;
                    task_success := false; task_output_length := None;
                    task_error := Some (str_exn e) |}).
  { unfold run_single_prompt. rewrite Hraise. reflexivity. }
  split; [| split; [| split]].
  - rewrite (results_dict_get document (invocations m) _ p b template_b Hnd Hp).
    rewrite Hb. reflexivity.
  - rewrite (submit_all_nth document _ (invocations m) p b template_b Hp).
    rewrite Hb. reflexivity.
  - apply submit_all_length.
  - intros q a template_a _ Hq. split.
    + apply submit_all_nth. exact Hq.
    + apply results_dict_get; assumption.
Qed.

End ParallelChains.

(** ** The properties on concrete runs *)

(** Three steps over the echoing callable: the outputs nest and the last
    one is the final output. *)
Lemma sequential_success_results_witness :
  exists m' results history total log,
    execute_sequential_chain echo_llm 3 new_manager echo_steps "X"
      = (m', ChainSuccess results "OUT:OUT:OUT:X" history total log) /\
    map output results = ["OUT:X"; "OUT:OUT:X"; "OUT:OUT:OUT:X"] /\
    map retry_count results = [0; 0; 0] /\
    List.length results = List.length echo_steps /\
    (forall i r, nth_error results i = Some r -> step r = (i + 1)%nat) /\
    "OUT:OUT:OUT:X" = last (map output results) "X".
Proof.
  do 5 eexists. split; [reflexivity |].
  split; [reflexivity |]. split; [reflexivity |].
  eapply (sequential_success_results echo_llm 3 new_manager echo_steps "X");
    [lia | reflexivity].
Defined.

(** Three steps of which the second rejects every output, two retries. *)
Lemma sequential_failure_at_step_witness :
  exists m1 input1 results1,
    for_steps echo_llm 2 0 [plain_step "a"] "X" [] new_manager
      = (m1, inr (input1, results1)) /\
    exists m' e added total,
      execute_sequential_chain echo_llm 2 new_manager
        ([plain_step "a"] ++ rejecting_step "b" :: [plain_step "c"]) "X"
        = (m',
           ChainFailure
             ("Chain failed at step " ++ str_nat 2 ++ " after "
                ++ str_int (2 + 1) ++ " attempts: " ++ str_exn e)
             results1 (chain_history m') total) /\
      List.length results1 = (2 - 1)%nat /\
      (forall i r, nth_error results1 i = Some r -> step r = (i + 1)%nat) /\
      invocations m' = (invocations m1 + Z.to_nat (2 + 1))%nat /\
      chain_history m' = (chain_history new_manager ++ added)%list /\
      Forall (fun l => (log_step l <= 2)%nat) added.
Proof.
  do 3 eexists. split; [reflexivity |].
  eapply (sequential_failure_at_step echo_llm 2 new_manager
            [plain_step "a"] (rejecting_step "b") [plain_step "c"] "X").
  - lia.
  - reflexivity.
  - intros j _. eexists. eexists. reflexivity.
Defined.


(** One step whose validator rejects every output, two retries: the run
    fails with no result after exactly three invocations. *)
Example always_failing_step_three_invocations :
  let run :=
    execute_sequential_chain echo_llm 2 new_manager [rejecting_step "t"] "X" in
  snd run
  = ChainFailure
      "Chain failed at step 1 after 3 attempts: Step 1 validation failed"
      [] (chain_history (fst run)) 0 /\
  invocations (fst run) = 3%nat.
Proof. intros run. split; vm_compute; reflexivity. Qed.

(** C4, counterexample.  The first of the two named validators of
    [two_validator_step] rejects the output; the attempt ends there with
    one recorded pair, and the second validator has not run. *)
Lemma later_validator_not_run :
  validators two_validator_step
    = Some [("length", always_false); ("format", always_true)] /\
  generate_and_validate echo_llm 0 0 two_validator_step "X"
    = AttemptRaised [{| validator_name := "length"; passed := false |}]
        (ValueError "Step 1 failed length validation") /\
  map validator_name
    (attempt_ran (generate_and_validate echo_llm 0 0 two_validator_step "X"))
    <> dict_keys [("length", always_false); ("format", always_true)].
Proof.
  split; [reflexivity |]. split; [reflexivity |]. discriminate.
Qed.

Lemma validators_run_in_order_witness :
  exists ran e n,
    generate_and_validate echo_llm 0 0 two_validator_step "X"
      = AttemptRaised ran e /\
    stopped_at 0 [("length", always_false); ("format", always_true)]
      "OUT:X" ran e n.
Proof.
  destruct (validators_run_in_order echo_llm 0 0 two_validator_step "X"
              [("length", always_false); ("format", always_true)] eq_refl)
    as [_ Hreturned].
  destruct (Hreturned "OUT:X" eq_refl) as (_ & _ & _ & Hstopped & _).
  destruct (Hstopped _ _ eq_refl) as (n & Hn).
  do 3 eexists. split; [reflexivity | exact Hn].
Defined.

(** Two tasks over a callable that is down, with a synthesis template. *)
Lemma no_synthesis_without_success_witness :
  invocations
    (fst (execute_parallel_chains down_llm ascii_upper new_manager failing_tasks
            "doc" (Some "Combine: {analysis_results}"))) = 2%nat /\
  exists o,
    snd (execute_parallel_chains down_llm ascii_upper new_manager failing_tasks
           "doc" (Some "Combine: {analysis_results}")) = Returned o /\
    synthesis o = None /\ successful_count o = 0 /\ failed_count o = 2.
Proof.
  destruct (no_synthesis_without_success down_llm ascii_upper new_manager failing_tasks
              "doc" (Some "Combine: {analysis_results}"))
    as (Hcalls & Hreturns & Hfields).
  - intros p prompt_name template _. eexists. reflexivity.
  - split; [exact Hcalls |].
    destruct Hreturns as (o & Ho); [discriminate |].
    exists o. split; [exact Ho |]. exact (Hfields o Ho).
Defined.

Lemma mixed_tasks_nodup : NoDup (dict_keys mixed_tasks).
Proof.
  repeat constructor; simpl; intros H;
    repeat (destruct H as [H | H]; try discriminate); exact H.
Defined.

Lemma parallel_keys_and_counts_witness :
  exists o,
    snd (execute_parallel_chains flaky_llm ascii_upper new_manager mixed_tasks "doc" None)
      = Returned o /\
    dict_keys (parallel_results o) = ["a"; "b"] /\
    successful_count o + failed_count o = 2.
Proof.
  destruct (parallel_keys_and_counts flaky_llm ascii_upper new_manager mixed_tasks "doc" None)
    as (Hreturns & Hfields).
  destruct Hreturns as (o & Ho); [discriminate |].
  exists o. split; [exact Ho |].
  destruct (Hfields o Ho) as (_ & Hsum & _ & _ & Hdistinct).
  destruct (Hdistinct mixed_tasks_nodup) as [Hkeys _].
  split; [exact Hkeys | exact Hsum].
Defined.

(** The tasks [a], which succeeds, and [b], which raises, without a
    synthesis template. *)
Lemma failed_task_is_isolated_witness :
  exists o,
    snd (execute_parallel_chains flaky_llm ascii_upper new_manager mixed_tasks "doc" None)
      = Returned o /\
    dict_get (parallel_results o) "b" = Some "Error: connection lost" /\
    dict_get (parallel_results o) "a" = Some "OUT:ok" /\
    List.length (execution_details o) = 2%nat.
Proof.
  destruct (failed_task_is_isolated flaky_llm ascii_upper new_manager mixed_tasks "doc" None
              1 "b" "boom" (CallableError "connection lost")
              mixed_tasks_nodup eq_refl eq_refl)
    as (o & Ho & Hb & _ & Hlen & Hsiblings).
  exists o. split; [exact Ho |]. split; [exact Hb |].
  split; [| exact Hlen].
  destruct (Hsiblings 0%nat "a" "ok") as [_ Ha];
    [discriminate | reflexivity | exact Ha].
Defined.

Lemma parallel_success_flag_witness :
  exists o,
    snd (execute_parallel_chains down_llm ascii_upper new_manager failing_tasks "doc" None)
      = Returned o /\
    success o = true.
Proof.
  apply (parallel_success_flag down_llm ascii_upper new_manager failing_tasks "doc" None).
  discriminate.
Defined.

(** The counts of the run over [a] and [b]: one success, one failure, no
    synthesis. *)
Example mixed_tasks_counts :
  exists o,
    snd (execute_parallel_chains flaky_llm ascii_upper new_manager mixed_tasks "doc" None)
      = Returned o /\
    successful_count o = 1 /\ failed_count o = 1 /\ synthesis o = None /\
    success o = true.
Proof. eexists. split; [reflexivity |]. repeat split. Qed.

(** Every task failed, and the top-level flag is true all the same. *)
Example all_failed_still_success :
  exists o,
    snd (execute_parallel_chains down_llm ascii_upper new_manager failing_tasks "doc"
           (Some "Combine: {analysis_results}")) = Returned o /\
    success o = true /\ successful_count o = 0 /\ failed_count o = 2.
Proof. eexists. split; [reflexivity |]. repeat split. Qed.

(** With a negative [max_retries] the loop of a step is never entered:
    the run reports success without a result for the step. *)
Example negative_max_retries_skips_steps :
  snd (execute_sequential_chain echo_llm (-1) new_manager [plain_step "a"] "X")
  = ChainSuccess [] "X" [] 0 [LogSuccess 1].
Proof. reflexivity. Qed.

(** ** Accounting of a sequential run *)

Section SequentialAccounting.

Variable llm : nat -> string -> list (string * string) -> pyresult string.
Variable max_retries : Z.

Local Abbreviation retry_loop := (retry_loop llm max_retries).
Local Abbreviation for_steps := (for_steps llm max_retries).
Local Abbreviation execute_sequential_chain :=
  (execute_sequential_chain llm max_retries).

(** An attempt that passes returns what the callable generated, and all
    the validation results it recorded are passes. *)
Lemma passed_attempt ticket i s current_input out ran :
  generate_and_validate llm ticket i s current_input = AttemptPassed out ran ->
  llm ticket (template s) [("input", current_input)] = Returned out /\
  Forall (fun vr => passed vr = true) ran.
Proof.
  unfold generate_and_validate, validate_reply.
  destruct (llm ticket (template s) [("input", current_input)])
    as [generated | e]; [| discriminate].
  destruct (validate i s generated) as [ran' [e |]] eqn:Hval; [discriminate |].
  intros Heq. inversion Heq; subst. split; [reflexivity |].
  unfold validate in Hval. destruct (validators s) as [vs |].
  - destruct (run_validators_spec _ _ _ _ _ _ Hval) as (new & Hran & _ & _ & Hall).
    simpl in Hran. subst. exact Hall.
  - destruct (validator s) as [validator_func |].
    + destruct (validator_func out) as [[|] | e]; simpl in Hval;
        inversion Hval; subst. repeat constructor.
    + inversion Hval; subst. constructor.
Qed.

(** The loop over the steps adds one history entry per invocation of the
    callable, whatever its outcome. *)
Lemma for_steps_attempts steps :
  forall i current_input results m m' out,
    for_steps i steps current_input results m = (m', out) ->
    exists added,
      chain_history m' = (chain_history m ++ added)%list /\
      invocations m' = (invocations m + List.length added)%nat.
Proof.
  induction steps as [| s rest IH];
    intros i current_input results m m' out Hrun; simpl in Hrun.
  - inversion Hrun; subst. exists []. rewrite app_nil_r. simpl. auto.
  - destruct (retry_loop i s current_input results 0 m) as [m1 ex] eqn:Hloop.
    destruct (retry_loop_spec _ _ _ _ _ _ _ _ _ _ _ eq_refl Hloop)
      as (k & Hinv & Hhist & _).
    assert (Hmine : exists added,
               chain_history m1 = (chain_history m ++ added)%list /\
               invocations m1 = (invocations m + List.length added)%nat).
    { eexists. split; [exact Hhist |]. rewrite length_map, length_seq.
      exact Hinv. }
    destruct Hmine as (mine & Hh1 & Hi1).
    assert (Hnext : forall i' input' results',
               for_steps i' rest input' results' m1 = (m', out) ->
               exists added,
                 chain_history m' = (chain_history m ++ added)%list /\
                 invocations m' = (invocations m + List.length added)%nat).
    { intros i' input' results' Hrest. apply IH in Hrest.
      destruct Hrest as (more & Hh & Hi). exists (mine ++ more)%list.
      rewrite Hh, Hh1, Hi, Hi1, <- app_assoc, length_app. split; [auto | lia]. }
    destruct ex as [r | er |]; [eauto | | eauto].
    inversion Hrun; subst. exists mine. auto.
Qed.

(** What a loop over the steps that runs to its end leaves behind, beside
    the results themselves. *)
Lemma for_steps_completed_effects steps :
  forall i current_input results m m' input' results',
    for_steps i steps current_input results m = (m', inr (input', results')) ->
    exists new,
      results' = (results ++ new)%list /\
      (List.length new <= List.length steps)%nat /\
      step_timings m' = (step_timings m ++ map step new)%list /\
      execution_log m' = execution_log m /\
      Z.of_nat (invocations m') = Z.of_nat (invocations m) + attempts_of new /\
      all_passed new.
Proof.
  induction steps as [| s rest IH];
    intros i current_input results m m' input' results' Hrun; simpl in Hrun.
  - inversion Hrun; subst. exists []. simpl. rewrite !app_nil_r.
    repeat split; try lia. constructor.
  - destruct (retry_loop i s current_input results 0 m)
      as [m1 [r | er |]] eqn:Hloop; [| discriminate |];
      destruct (retry_loop_spec _ _ _ _ _ _ _ _ _ _ _ eq_refl Hloop)
        as (k & Hinv & _ & Hpost); simpl in Hpost;
      apply IH in Hrun;
      destruct Hrun as (new & -> & Hlen & Htim & Hlog & Hacc & Hpass).
    + destruct Hpost as (k0 & -> & _ & Hgv & Hstep & Hrc & _ & _ & Htim1 & Hlog1).
      exists (r :: new). rewrite <- app_assoc. simpl.
      split; [reflexivity |]. split; [lia |].
      split; [rewrite Htim, Htim1, <- app_assoc, Hstep; reflexivity |].
      split; [congruence |].
      split; [lia |].
      constructor; [| exact Hpass]. apply (passed_attempt _ _ _ _ _ _ Hgv).
    + destruct Hpost as (-> & -> & _). exists new.
      repeat split; try assumption. simpl. lia.
Qed.

(** The failure dictionary of a run, taken apart: the run completed a
    prefix of the steps and exhausted the attempts of the next one. *)
Lemma failed_run_parts m chain_steps initial_input m' o :
  execute_sequential_chain m chain_steps initial_input = (m', o) ->
  chain_success o = false ->
  exists pre s post m1 input1 ran e,
    chain_steps = (pre ++ s :: post)%list /\
    for_steps 0 pre initial_input [] m
      = (m1, inr (input1, outcome_results o)) /\
    List.length (outcome_results o) = List.length pre /\
    0 <= max_retries /\
    invocations m' = (invocations m1 + Z.to_nat (max_retries + 1))%nat /\
    generate_and_validate llm (invocations m' - 1) (List.length pre) s input1
      = AttemptRaised ran e /\
    step_timings m' = step_timings m1 /\
    execution_log m'
      = (execution_log m1
           ++ [LogFailed (str_exn e) (List.length pre + 1)%nat max_retries])%list /\
    o = ChainFailure (chain_error max_retries (List.length pre) (str_exn e))
          (outcome_results o) (chain_history m')
          (List.length (step_timings m1)).
Proof.
  intros Hrun Hfailed. unfold execute_sequential_chain in Hrun.
  destruct (for_steps 0 chain_steps initial_input [] m)
    as [m1 [er | [input1 results1]]] eqn:Hfor.
  - inversion Hrun; subst. clear Hrun.
    destruct (for_steps_failed _ _ _ _ _ _ _ _ _ Hfor)
      as (pre & s & post & m2 & i2 & r2 & Hsteps & Hpre & Hloop).
    simpl in Hloop.
    destruct (retry_loop_spec _ _ _ _ _ _ _ _ _ _ _ eq_refl Hloop)
      as (k & Hinv & _ & Hk & Hkpos & _ & ran & e & Hgv & Hshape & Htim & Hlog).
    assert (Hpos : 0 <= max_retries) by lia.
    destruct (for_steps_completed _ _ _ _ _ _ _ _ _ _ Hpre)
      as (new & Hres & _ & _ & Hlen).
    destruct (Hlen Hpos) as [Hsame _]. simpl in Hres. subst r2.
    exists pre, s, post, m2, i2, ran, e.
    replace (invocations m' - 1)%nat with (invocations m2 + (k - 1))%nat by lia.
    subst o. simpl.
    repeat split; first [assumption | lia | reflexivity].
  - inversion Hrun; subst. discriminate.
Qed.

(** The output of each step that a loop over the steps completes is the
    reply of the callable to the output of the step before it. *)
Lemma for_steps_fed_forward steps :
  0 <= max_retries ->
  forall i current_input results m m' input' results',
    for_steps i steps current_input results m = (m', inr (input', results')) ->
    exists new,
      results' = (results ++ new)%list /\
      forall j s r,
        nth_error steps j = Some s ->
        nth_error new j = Some r ->
        exists ticket,
          (invocations m <= ticket < invocations m')%nat /\
          llm ticket (template s)
            [("input", nth j (current_input :: map output new) current_input)]
          = Returned (output r).
Proof.
  intros Hpos. induction steps as [| s0 rest IH];
    intros i current_input results m m' input' results' Hrun; simpl in Hrun.
  - inversion Hrun; subst. exists []. rewrite app_nil_r.
    split; [reflexivity |]. intros [| j] s r Hs; discriminate.
  - destruct (retry_loop i s0 current_input results 0 m)
      as [m1 [r0 | er |]] eqn:Hloop; [| discriminate |];
      destruct (retry_loop_spec _ _ _ _ _ _ _ _ _ _ _ eq_refl Hloop)
        as (k & Hinv & _ & Hpost); simpl in Hpost.
    + destruct Hpost as (k0 & -> & _ & Hgv & _).
      destruct (passed_attempt _ _ _ _ _ _ Hgv) as [Hllm _].
      destruct (for_steps_attempts _ _ _ _ _ _ _ Hrun) as (added & _ & Hmono).
      apply IH in Hrun. destruct Hrun as (new & -> & Hnew).
      exists (r0 :: new). rewrite <- app_assoc. split; [reflexivity |].
      intros [| j] s r Hs Hr; simpl in Hs, Hr.
      * inversion Hs; inversion Hr; subst.
        exists (invocations m + k0)%nat. split; [lia | exact Hllm].
      * destruct (Hnew j s r Hs Hr) as (ticket & Hrange & Hreply).
        exists ticket. split; [lia |].
        change (nth (S j) (current_input :: map output (r0 :: new))
                  current_input)
          with (nth j (output r0 :: map output new) current_input).
        assert (Hlt : (j < List.length new)%nat)
          by (apply nth_error_Some; congruence).
        rewrite (nth_indep _ current_input (output r0));
          [exact Hreply | simpl; rewrite length_map; lia].
    + destruct Hpost as (_ & _ & Hneg). lia.
Qed.

(** X1.  In a successful run with [max_retries >= 0] the output of every
    step is what the callable returned for that step's template on the
    output of the step before it (on the initial input for the first
    step), in an invocation made during this run. *)
Theorem outputs_feed_forward
    m chain_steps initial_input m' results final_output history total log :
  0 <= max_retries ->
  execute_sequential_chain m chain_steps initial_input
    = (m', ChainSuccess results final_output history total log) ->
  forall j s r,
    nth_error chain_steps j = Some s ->
    nth_error results j = Some r ->
    exists ticket,
      (invocations m <= ticket < invocations m')%nat /\
      llm ticket (template s)
        [("input", nth j (initial_input :: map output results) initial_input)]
      = Returned (output r).
Proof.
  intros Hpos Hrun. unfold execute_sequential_chain in Hrun.
  destruct (for_steps 0 chain_steps initial_input [] m)
    as [m1 [er | [input1 results1]]] eqn:Hfor.
  - exfalso. inversion Hrun; subst.
    destruct (for_steps_failed _ _ _ _ _ _ _ _ _ Hfor)
      as (pre & s & post & m2 & i2 & r2 & _ & _ & Hloop).
    destruct (retry_loop_spec _ _ _ _ _ _ _ _ _ _ _ eq_refl Hloop)
      as (k & _ & _ & _ & _ & _ & ran & e & _ & Her & _).
    discriminate.
  - inversion Hrun; subst. clear Hrun.
    destruct (for_steps_fed_forward _ Hpos _ _ _ _ _ _ _ Hfor)
      as (new & Hres & Hnew).
    simpl in Hres. subst results. exact Hnew.
Qed.

(** Results whose retry counts are within the bounds account for at most
    [max_retries + 1] attempts each. *)
Lemma attempts_of_bounds results :
  Forall (fun r => 0 <= retry_count r <= max_retries) results ->
  Z.of_nat (List.length results) <= attempts_of results
  /\ attempts_of results <= (max_retries + 1) * Z.of_nat (List.length results).
Proof.
  induction 1 as [| r results Hr _ IH]; simpl; [lia |].
  destruct IH as [Hlow Hhigh]. split; [lia | nia].
Qed.

(** X2.  The history is never reset: the [execution_history] that a run
    returns is the history the manager had before the run followed by one
    entry per invocation of the callable made in this run. *)
Theorem history_is_cumulative m chain_steps initial_input :
  let run := execute_sequential_chain m chain_steps initial_input in
  exists added,
    outcome_history (snd run) = (chain_history m ++ added)%list /\
    chain_history (fst run) = (chain_history m ++ added)%list /\
    invocations (fst run) = (invocations m + List.length added)%nat.
Proof.
  intros run. subst run. unfold execute_sequential_chain.
  destruct (for_steps 0 chain_steps initial_input [] m)
    as [m1 [er | [input1 results1]]] eqn:Hfor;
    destruct (for_steps_attempts _ _ _ _ _ _ _ Hfor) as (added & Hhist & Hinv);
    exists added; simpl.
  - destruct (for_steps_failed _ _ _ _ _ _ _ _ _ Hfor)
      as (pre & s & post & m2 & i2 & r2 & _ & _ & Hloop).
    destruct (retry_loop_spec _ _ _ _ _ _ _ _ _ _ _ eq_refl Hloop)
      as (k & _ & _ & _ & _ & _ & ran & e & _ & -> & _).
    simpl. auto.
  - auto.
Qed.

(** X3.  The step timings are never reset either: the [total_steps] that
    a run reports is the number of steps the manager had timed before the
    run plus the number of results of this run. *)
Theorem total_steps_accumulate m chain_steps initial_input :
  let run := execute_sequential_chain m chain_steps initial_input in
  outcome_total_steps (snd run)
  = (List.length (step_timings m) + List.length (outcome_results (snd run)))%nat.
Proof.
  intros run. subst run.
  destruct (execute_sequential_chain m chain_steps initial_input)
    as [m' o] eqn:Hrun.
  destruct (chain_success o) eqn:Hok.
  - unfold execute_sequential_chain in Hrun.
    destruct (for_steps 0 chain_steps initial_input [] m)
      as [m1 [er | [input1 results1]]] eqn:Hfor.
    + inversion Hrun; subst. exfalso.
      destruct (for_steps_failed _ _ _ _ _ _ _ _ _ Hfor)
        as (pre & s & post & m2 & i2 & r2 & _ & _ & Hloop).
      destruct (retry_loop_spec _ _ _ _ _ _ _ _ _ _ _ eq_refl Hloop)
        as (k & _ & _ & _ & _ & _ & ran & e & _ & -> & _).
      discriminate.
    + inversion Hrun; subst. simpl.
      destruct (for_steps_completed_effects _ _ _ _ _ _ _ _ Hfor)
        as (new & -> & _ & -> & _).
      simpl. rewrite length_app, length_map. reflexivity.
  - destruct (failed_run_parts _ _ _ _ _ Hrun Hok)
      as (pre & s & post & m1 & input1 & ran & e & _ & Hpre & _ & _ & _ & _
          & _ & _ & Hshape).
    destruct (for_steps_completed_effects _ _ _ _ _ _ _ _ Hpre)
      as (new & Hres & _ & Htim & _).
    simpl in Hres. rewrite Hshape. simpl. rewrite Htim, Hres.
    rewrite length_app, length_map. reflexivity.
Qed.

(** X4.  The invocations of a run are accounted for by its outcome: each
    result stands for its [retry_count] failed attempts and the one that
    passed, and a failure adds the [max_retries + 1] attempts of the step
    that failed. *)
Theorem invocations_accounted_for m chain_steps initial_input :
  let run := execute_sequential_chain m chain_steps initial_input in
  Z.of_nat (invocations (fst run))
  = Z.of_nat (invocations m) + attempts_of (outcome_results (snd run))
    + (if chain_success (snd run) then 0 else max_retries + 1).
Proof.
  intros run. subst run.
  destruct (execute_sequential_chain m chain_steps initial_input)
    as [m' o] eqn:Hrun.
  destruct (chain_success o) eqn:Hok; simpl; rewrite ?Hok.
  - unfold execute_sequential_chain in Hrun.
    destruct (for_steps 0 chain_steps initial_input [] m)
      as [m1 [er | [input1 results1]]] eqn:Hfor.
    + inversion Hrun; subst. exfalso.
      destruct (for_steps_failed _ _ _ _ _ _ _ _ _ Hfor)
        as (pre & s & post & m2 & i2 & r2 & _ & _ & Hloop).
      destruct (retry_loop_spec _ _ _ _ _ _ _ _ _ _ _ eq_refl Hloop)
        as (k & _ & _ & _ & _ & _ & ran & e & _ & -> & _).
      discriminate.
    + inversion Hrun; subst. simpl.
      destruct (for_steps_completed_effects _ _ _ _ _ _ _ _ Hfor)
        as (new & -> & _ & _ & _ & Hacc & _).
      simpl. lia.
  - destruct (failed_run_parts _ _ _ _ _ Hrun Hok)
      as (pre & s & post & m1 & input1 & ran & e & _ & Hpre & _ & Hpos & Hinv
          & _).
    destruct (for_steps_completed_effects _ _ _ _ _ _ _ _ Hpre)
      as (new & Hres & _ & _ & _ & Hacc & _).
    simpl in Hres. rewrite Hres. lia.
Qed.

(** X5.  A run over [n] steps never makes more than [(max_retries + 1) * n]
    invocations of the callable (none at all when [max_retries] is
    negative). *)
Theorem invocations_bounded m chain_steps initial_input :
  let run := execute_sequential_chain m chain_steps initial_input in
  (invocations m <= invocations (fst run))%nat /\
  Z.of_nat (invocations (fst run) - invocations m)
  <= Z.max 0 (max_retries + 1) * Z.of_nat (List.length chain_steps).
Proof.
  intros run. subst run.
  destruct (history_is_cumulative m chain_steps initial_input)
    as (added & _ & _ & Hinv).
  pose proof (invocations_accounted_for m chain_steps initial_input) as Hacc.
  simpl in Hacc.
  destruct (execute_sequential_chain m chain_steps initial_input)
    as [m' o] eqn:Hrun.
  simpl in *. split; [lia |].
  assert (Hnn : 0 <= Z.max 0 (max_retries + 1)
                     * Z.of_nat (List.length chain_steps))
    by (apply Z.mul_nonneg_nonneg; lia).
  destruct (chain_success o) eqn:Hok.
  - unfold execute_sequential_chain in Hrun.
    destruct (for_steps 0 chain_steps initial_input [] m)
      as [m1 [er | [input1 results1]]] eqn:Hfor.
    + inversion Hrun; subst. exfalso.
      destruct (for_steps_failed _ _ _ _ _ _ _ _ _ Hfor)
        as (pre & s & post & m2 & i2 & r2 & _ & _ & Hloop).
      destruct (retry_loop_spec _ _ _ _ _ _ _ _ _ _ _ eq_refl Hloop)
        as (k & _ & _ & _ & _ & _ & ran & e & _ & -> & _).
      discriminate.
    + inversion Hrun; subst. simpl in Hacc.
      destruct (for_steps_completed _ _ _ _ _ _ _ _ _ _ Hfor)
        as (new & Hres & _ & Hbounds & _).
      destruct (for_steps_completed_effects _ _ _ _ _ _ _ _ Hfor)
        as (new' & Hres' & Hlen & _).
      simpl in Hres, Hres'. subst results1. subst new'.
      destruct (attempts_of_bounds _ Hbounds) as [_ Hhigh]. simpl.
      destruct new as [| r new]; [simpl in *; lia |].
      inversion Hbounds; subst.
      rewrite Z.max_r by lia.
      assert (Hmul : (max_retries + 1) * Z.of_nat (List.length (r :: new))
                     <= (max_retries + 1) * Z.of_nat (List.length chain_steps))
        by (apply Z.mul_le_mono_nonneg_l; lia).
      lia.
  - destruct (failed_run_parts _ _ _ _ _ Hrun Hok)
      as (pre & s & post & m1 & input1 & ran & e & Hsteps & Hpre & Hsame & Hpos
          & _).
    destruct (for_steps_completed _ _ _ _ _ _ _ _ _ _ Hpre)
      as (new & Hres & _ & Hbounds & _).
    simpl in Hres. rewrite Hres in *.
    destruct (attempts_of_bounds _ Hbounds) as [_ Hhigh].
    rewrite Z.max_r by lia.
    assert (Hmul : (max_retries + 1) * (Z.of_nat (List.length new) + 1)
                   <= (max_retries + 1) * Z.of_nat (List.length chain_steps)).
    { apply Z.mul_le_mono_nonneg_l; [lia |].
      rewrite Hsteps, length_app. simpl. lia. }
    lia.
Qed.

(** X6.  Only passes are ever recorded: in the results of every outcome,
    success or failure, each validation result has [passed] true. *)
Theorem recorded_validations_passed m chain_steps initial_input :
  all_passed
    (outcome_results (snd (execute_sequential_chain m chain_steps initial_input))).
Proof.
  destruct (execute_sequential_chain m chain_steps initial_input)
    as [m' o] eqn:Hrun.
  destruct (chain_success o) eqn:Hok; simpl.
  - unfold execute_sequential_chain in Hrun.
    destruct (for_steps 0 chain_steps initial_input [] m)
      as [m1 [er | [input1 results1]]] eqn:Hfor.
    + inversion Hrun; subst. exfalso.
      destruct (for_steps_failed _ _ _ _ _ _ _ _ _ Hfor)
        as (pre & s & post & m2 & i2 & r2 & _ & _ & Hloop).
      destruct (retry_loop_spec _ _ _ _ _ _ _ _ _ _ _ eq_refl Hloop)
        as (k & _ & _ & _ & _ & _ & ran & e & _ & -> & _).
      discriminate.
    + inversion Hrun; subst. simpl.
      destruct (for_steps_completed_effects _ _ _ _ _ _ _ _ Hfor)
        as (new & -> & _ & _ & _ & _ & Hpass).
      exact Hpass.
  - destruct (failed_run_parts _ _ _ _ _ Hrun Hok)
      as (pre & s & post & m1 & input1 & ran & e & _ & Hpre & _).
    destruct (for_steps_completed_effects _ _ _ _ _ _ _ _ Hpre)
      as (new & Hres & _ & _ & _ & _ & Hpass).
    simpl in Hres. rewrite Hres. exact Hpass.
Qed.

(** X7.  Every run adds exactly one entry to the execution log.  A
    successful run logs the number of steps it was given.  A failed run
    names, in its error message and in its log entry alike, the step that
    follows the partial results, and logs [max_retries] as the number of
    retries. *)
Theorem one_log_entry_per_run m chain_steps initial_input :
  let run := execute_sequential_chain m chain_steps initial_input in
  match snd run with
  | ChainSuccess _ _ _ _ log =>
      execution_log (fst run)
      = (execution_log m ++ [LogSuccess (List.length chain_steps)])%list /\
      log = execution_log (fst run)
  | ChainFailure error partial_results _ _ =>
      (List.length partial_results < List.length chain_steps)%nat /\
      exists error_msg,
        error
        = "Chain failed at step " ++ str_nat (List.length partial_results + 1)
            ++ " after " ++ str_int (max_retries + 1) ++ " attempts: "
            ++ error_msg /\
        execution_log (fst run)
        = (execution_log m
             ++ [LogFailed error_msg (List.length partial_results + 1)%nat
                   max_retries])%list
  end.
Proof.
  intros run. subst run.
  destruct (execute_sequential_chain m chain_steps initial_input)
    as [m' o] eqn:Hrun.
  destruct (chain_success o) eqn:Hok.
  - unfold execute_sequential_chain in Hrun.
    destruct (for_steps 0 chain_steps initial_input [] m)
      as [m1 [er | [input1 results1]]] eqn:Hfor.
    + inversion Hrun; subst. exfalso.
      destruct (for_steps_failed _ _ _ _ _ _ _ _ _ Hfor)
        as (pre & s & post & m2 & i2 & r2 & _ & _ & Hloop).
      destruct (retry_loop_spec _ _ _ _ _ _ _ _ _ _ _ eq_refl Hloop)
        as (k & _ & _ & _ & _ & _ & ran & e & _ & -> & _).
      discriminate.
    + inversion Hrun; subst. simpl.
      destruct (for_steps_completed_effects _ _ _ _ _ _ _ _ Hfor)
        as (new & _ & _ & _ & -> & _).
      auto.
  - destruct (failed_run_parts _ _ _ _ _ Hrun Hok)
      as (pre & s & post & m1 & input1 & ran & e & Hsteps & Hpre & Hsame & _
          & _ & _ & _ & Hlog & Hshape).
    destruct (for_steps_completed_effects _ _ _ _ _ _ _ _ Hpre)
      as (new & _ & _ & _ & Hlog1 & _).
    rewrite Hshape in *. simpl in *. rewrite Hsame.
    split; [rewrite Hsteps, length_app; simpl; lia |].
    exists (str_exn e). split; [reflexivity |].
    rewrite Hlog, Hlog1. reflexivity.
Qed.

(** The waits of a loop entered with [retry_count]: one after each failed
    attempt but the last. *)
Lemma retry_loop_backoff i s current_input results :
  forall (n : nat) retry_count m m' exit,
    Z.to_nat (max_retries + 1 - retry_count) = n ->
    retry_loop i s current_input results retry_count m = (m', exit) ->
    backoff m'
    = (backoff m
         ++ map (fun j => retry_count + Z.of_nat j)
              (seq 0 (invocations m' - invocations m - 1)))%list.
Proof.
  induction n as [| n IH]; intros rc m m' exit Hn Hloop;
    pose proof Hloop as Hrec; rewrite retry_loop_eq in Hrec.
  - destruct (Z.leb_spec rc max_retries) as [Hle | Hgt]; [lia |].
    inversion Hrec; subst. rewrite Nat.sub_diag. simpl.
    rewrite app_nil_r. reflexivity.
  - destruct (Z.leb_spec rc max_retries) as [Hle | Hgt]; [| lia].
    rewrite run_attempt_eq in Hrec.
    destruct (generate_and_validate llm (invocations m) i s current_input)
      as [out ran | ran e].
    + inversion Hrec; subst. simpl.
      replace (invocations m + 1 - invocations m - 1)%nat with 0%nat by lia.
      simpl. rewrite app_nil_r. reflexivity.
    + destruct (Z.gtb_spec (rc + 1) max_retries) as [Hlast | Hmore].
      * inversion Hrec; subst. simpl.
        replace (invocations m + 1 - invocations m - 1)%nat with 0%nat by lia.
        simpl. rewrite app_nil_r. reflexivity.
      * destruct (Z.leb_spec (rc + 1) max_retries) as [_ | Hno]; [| lia].
        destruct (retry_loop_spec _ _ _ _ _ _ _ _ _ _ _ eq_refl Hrec)
          as (k & Hinv & _ & Hpost).
        assert (Hk : (0 < k)%nat).
        { destruct exit as [r | er |]; simpl in Hpost.
          - destruct Hpost as (k0 & -> & _). lia.
          - destruct Hpost as (_ & Hpos & _). exact Hpos.
          - destruct Hpost as (_ & _ & Hneg). lia. }
        apply IH in Hrec; [| lia]. simpl in Hrec, Hinv.
        rewrite Hrec, <- app_assoc. f_equal.
        replace (invocations m' - invocations m - 1)%nat
          with (S (invocations m' - (invocations m + 1) - 1))%nat by lia.
        simpl. f_equal; [lia |].
        rewrite <- seq_shift, map_map. apply map_ext. intros j. lia.
Qed.

(** X8.  The waits between the attempts of one step double each time and
    none follows the last attempt: a loop that makes [a] attempts sleeps
    [0.5 * 2 ** 0], [0.5 * 2 ** 1], ..., [0.5 * 2 ** (a - 2)] seconds, the
    exponents being what [backoff] records. *)
Theorem backoff_schedule i s current_input results m :
  let loop := retry_loop i s current_input results 0 m in
  backoff (fst loop)
  = (backoff m
       ++ map Z.of_nat
            (seq 0 (invocations (fst loop) - invocations m - 1)))%list.
Proof.
  intros loop. subst loop.
  destruct (retry_loop i s current_input results 0 m) as [m' exit] eqn:Hloop.
  simpl. rewrite (retry_loop_backoff _ _ _ _ _ _ _ _ _ eq_refl Hloop).
  f_equal.
Qed.

(** X16.  A failed run reports the cause of the last attempt only: its
    error message ends with the text of the exception that ended the
    attempt made in the last invocation of the run, be it raised by the
    callable or by the validation; the causes of the earlier attempts are
    not in the outcome. *)
Theorem failure_reports_last_attempt m chain_steps initial_input m' o :
  execute_sequential_chain m chain_steps initial_input = (m', o) ->
  chain_success o = false ->
  exists pre s post input1 ran e,
    chain_steps = (pre ++ s :: post)%list /\
    generate_and_validate llm (invocations m' - 1) (List.length pre) s input1
      = AttemptRaised ran e /\
    o = ChainFailure
          ("Chain failed at step " ++ str_nat (List.length pre + 1)
             ++ " after " ++ str_int (max_retries + 1) ++ " attempts: "
             ++ str_exn e)
          (outcome_results o) (outcome_history o) (outcome_total_steps o).
Proof.
  intros Hrun Hfailed.
  destruct (failed_run_parts _ _ _ _ _ Hrun Hfailed)
    as (pre & s & post & m1 & input1 & ran & e & Hsteps & _ & _ & _ & _ & Hgv
        & _ & _ & Hshape).
  exists pre, s, post, input1, ran, e.
  split; [exact Hsteps |]. split; [exact Hgv |].
  rewrite Hshape at 1. rewrite Hshape. reflexivity.
Qed.

End SequentialAccounting.

(** ** The synthesis of a parallel run *)

Section ParallelSynthesis.

Variable llm : nat -> string -> list (string * string) -> pyresult string.
Variable str_upper : string -> string.

Local Abbreviation run_single_prompt := (run_single_prompt llm).
Local Abbreviation submit_all := (submit_all llm).
Local Abbreviation execute_parallel_chains :=
  (execute_parallel_chains llm str_upper).

(** The synthesis input over the items of a list of entries is the
    concatenation of their blocks. *)
Lemma synthesis_input_blocks (l : list TaskResult) :
  synthesis_input str_upper (map (fun r => (name r, result r)) l)
  = String.concat (newline ++ newline) (map (analysis_block str_upper) l).
Proof. unfold synthesis_input. rewrite map_map. reflexivity. Qed.

(** X10.  The synthesis is attempted exactly when a non-empty template was
    given and at least one task succeeded: it then costs one invocation
    beyond the one of each task and the synthesis field holds a text;
    otherwise no further invocation is made and the field is [None]. *)
Theorem synthesis_attempted_iff
    m prompt_templates document synthesis_template :
  match execute_parallel_chains m prompt_templates document
          synthesis_template with
  | (m', Returned o) =>
      (synthesis o = None <->
       synthesis_template = None \/ synthesis_template = Some EmptyString
       \/ successful_count o = 0) /\
      invocations m'
      = (invocations m + List.length prompt_templates
         + match synthesis o with None => 0 | Some _ => 1 end)%nat
  | (m', Raised _) => prompt_templates = [] /\ m' = m
  end.
Proof.
  destruct prompt_templates as [| item rest] eqn:Htasks; [split; reflexivity |].
  rewrite <- Htasks.
  assert (Hne : prompt_templates <> []) by (rewrite Htasks; discriminate).
  rewrite execute_parallel_chains_nonempty by exact Hne.
  simpl. unfold synthesize, dict_len.
  destruct (dict_comprehension task_success name result
              (submit_all document (invocations m) prompt_templates))
    as [| first others];
    destruct synthesis_template as [[| c t] |]; simpl.
  all: try (split; [split; [intros _; auto | reflexivity] | lia]).
  destruct (llm _ _ _); simpl; (split; [| lia]); split;
    try discriminate;
    intros [Hn | [He | Hz]]; try discriminate; lia.
Qed.

(** X11.  Over distinct task names, when a non-empty synthesis template is
    given and some task succeeded, the synthesis call is made after the
    tasks, on the blocks of the successful tasks only, in the order of
    the tasks, together with the original document; its reply, or the
    message of its exception, becomes the synthesis field. *)
Theorem synthesis_reads_successes_only
    m prompt_templates document c t p prompt_name template generated :
  NoDup (dict_keys prompt_templates) ->
  nth_error prompt_templates p = Some (prompt_name, template) ->
  llm (invocations m + p) template [("document", document)]
    = Returned generated ->
  exists o,
    snd (execute_parallel_chains m prompt_templates document
           (Some (String c t))) = Returned o /\
    synthesis o
    = Some (synthesis_text
              (llm (invocations m + List.length prompt_templates) (String c t)
                 [("analysis_results",
                   String.concat (newline ++ newline)
                     (map (analysis_block str_upper)
                        (filter task_success (execution_details o))));
                  ("original_document", document)])).
Proof.
  intros Hnd Hp Hok.
  assert (Hne : prompt_templates <> [])
    by (intros ->; destruct p; discriminate).
  rewrite execute_parallel_chains_nonempty by exact Hne.
  simpl. eexists. split; [reflexivity |]. simpl.
  rewrite dict_comprehension_nodup by (rewrite submit_all_names; exact Hnd).
  assert (Hin : In (run_single_prompt document (invocations m + p)
                      prompt_name template)
                  (filter task_success
                     (submit_all document (invocations m) prompt_templates))).
  { apply filter_In. split.
    - apply (nth_error_In _ p). apply submit_all_nth. exact Hp.
    - unfold run_single_prompt. rewrite Hok. reflexivity. }
  unfold synthesize. rewrite synthesis_input_blocks.
  destruct (filter task_success
              (submit_all document (invocations m) prompt_templates))
    as [| first others] eqn:Hfilter; [contradiction |].
  cbn [map is_empty negb andb String.eqb].
  destruct (llm (invocations m + List.length prompt_templates)%nat _ _);
    reflexivity.
Qed.

End ParallelSynthesis.

Lemma synthesis_reads_successes_only_witness :
  exists o,
    snd (execute_parallel_chains flaky_llm ascii_upper new_manager mixed_tasks "doc"
           (Some "Combine")) = Returned o /\
    synthesis o = Some "OUT:Combine" /\
    map name (filter task_success (execution_details o)) = ["a"].
Proof.
  destruct (synthesis_reads_successes_only flaky_llm ascii_upper new_manager mixed_tasks
              "doc" "C"%char "ombine" 0 "a" "ok" "OUT:ok"
              mixed_tasks_nodup eq_refl eq_refl)
    as (o & Ho & Hsyn).
  exists o. split; [exact Ho |].
  assert (Hdetails : map name (filter task_success (execution_details o)) = ["a"]).
  { vm_compute in Ho. inversion Ho; subst o. reflexivity. }
  split; [| exact Hdetails].
  rewrite Hsyn. reflexivity.
Defined.

(** ** The chain factories *)

Section ChainFactoryProperties.

Variable llm : nat -> string -> list (string * string) -> pyresult string.
Variable leading_int : string -> option Z.

(** The run of the three pipeline steps inside [content_pipeline]. *)
Local Abbreviation pipeline_run calls topic target_audience content_type :=
  (execute_sequential_chain llm default_max_retries (manager_after calls)
     (pipeline_steps topic target_audience content_type)
     ("Topic: " ++ topic)).

(** The run of the three complex steps inside [assess_and_route]. *)
Local Abbreviation complex_run calls user_query :=
  (execute_sequential_chain llm default_max_retries
     (manager_after (calls + 1)) (complex_steps user_query) user_query).

(** The success branch of [content_pipeline] reads its first three values
    and stops at the key that is not there. *)
Lemma pipeline_content_of_success results final history total log :
  pipeline_content
    (outcome_dict (ChainSuccess results final history total log))
  = KeyError "history".
Proof.
  unfold pipeline_content, getitem.
  cbn [outcome_dict dict_get String.eqb Ascii.eqb Bool.eqb lookup_bind
       as_results].
  destruct (Z.ltb_spec 0 (Z.of_nat (List.length results))) as [H0 | H0];
    destruct (Z.ltb_spec 1 (Z.of_nat (List.length results))) as [H1 | H1];
    destruct results as [| r [| r' rest]]; simpl in H0, H1; try lia;
    reflexivity.
Qed.

(** X12.  [content_pipeline] never returns the content dictionary.  When
    its three steps succeed it raises [KeyError] for the key [history],
    which the outcome dictionary does not have; when the chain fails it
    returns the error dictionary with the error message of the chain. *)
Theorem content_pipeline_never_delivers
    calls topic target_audience content_type :
  snd (content_pipeline llm calls topic target_audience content_type)
  = match snd (pipeline_run calls topic target_audience content_type) with
    | ChainSuccess _ _ _ _ _ => KeyError "history"
    | ChainFailure error _ _ _ => Found (PipelineError (VStr error))
    end /\
  forall outline detailed_content final_content execution_history,
    snd (content_pipeline llm calls topic target_audience content_type)
    <> Found (PipelineContent outline detailed_content final_content
                execution_history).
Proof.
  unfold content_pipeline.
  destruct (pipeline_run calls topic target_audience content_type)
    as [manager [results final history total log | error partial history total]].
  - rewrite pipeline_content_of_success. simpl.
    split; [reflexivity | discriminate].
  - simpl. split; [reflexivity | discriminate].
Qed.


(** X14.  Once the assessment has returned a score above the threshold,
    [assess_and_route] does not raise: it returns the final output of the
    three complex steps, or the text [Processing failed] when that chain
    failed, after at most 12 further invocations. *)
Theorem complex_route_returns
    calls user_query complexity_threshold complexity_assessment :
  llm calls complexity_template [("query", user_query)]
    = Returned complexity_assessment ->
  complexity_threshold < complexity_score leading_int complexity_assessment ->
  let call :=
    assess_and_route llm leading_int calls user_query complexity_threshold in
  (calls + 1 <= fst call <= calls + 13)%nat /\
  snd call
  = Returned
      (VStr match snd (complex_run calls user_query) with
            | ChainSuccess _ final_output _ _ _ => final_output
            | ChainFailure _ _ _ _ => "Processing failed"
            end).
Proof.
  intros Hassess Hscore call. subst call. unfold assess_and_route.
  rewrite Hassess.
  destruct (Z.leb_spec (complexity_score leading_int complexity_assessment)
              complexity_threshold) as [Hle | _]; [lia |].
  pose proof (invocations_bounded llm default_max_retries
                (manager_after (calls + 1)) (complex_steps user_query)
                user_query) as [Hlow Hhigh].
  simpl in Hlow, Hhigh.
  destruct (complex_run calls user_query) as [manager o].
  simpl in *. unfold default_max_retries in *. split; [lia |].
  destruct o; reflexivity.
Qed.

(** X15.  [assess_and_route] raises exactly what the callable raises in
    the assessment or in the simple answer; the failures of the callable
    inside the complex chain never reach the caller. *)
Theorem route_raises_iff calls user_query complexity_threshold e :
  snd (assess_and_route llm leading_int calls user_query complexity_threshold)
  = Raised e
  <->
  llm calls complexity_template [("query", user_query)] = Raised e
  \/ exists complexity_assessment,
       llm calls complexity_template [("query", user_query)]
         = Returned complexity_assessment /\
       complexity_score leading_int complexity_assessment
         <= complexity_threshold /\
       llm (calls + 1) simple_template [("query", user_query)] = Raised e.
Proof.
  unfold assess_and_route.
  destruct (llm calls complexity_template [("query", user_query)])
    as [complexity_assessment | e0]; simpl.
  - destruct (Z.leb_spec (complexity_score leading_int complexity_assessment)
                complexity_threshold) as [Hle | Hgt]; simpl.
    + destruct (llm (calls + 1) simple_template [("query", user_query)])
        as [answer | e1]; split.
      * discriminate.
      * intros [H | (a & Ha & _ & H)]; discriminate.
      * intros H. right. exists complexity_assessment. inversion H. auto.
      * intros [H | (a & Ha & _ & H)]; [discriminate |].
        inversion H. reflexivity.
    + destruct (complex_run calls user_query) as [manager o]. simpl. split.
      * discriminate.
      * intros [H | (a & Ha & Hle & _)]; [discriminate |].
        inversion Ha; subst. lia.
  - split.
    + intros H. left. inversion H. reflexivity.
    + intros [H | (a & Ha & _)]; [inversion H; reflexivity | discriminate].
Qed.

(** An assessment whose first word is not an integer is routed as if it
    began with 5: the route taken with a reading of the first word is the
    route taken with that reading completed by 5. *)
Lemma unreadable_score_is_five calls user_query complexity_threshold :
  assess_and_route llm leading_int calls user_query complexity_threshold
  = assess_and_route llm
      (fun text =>
         match leading_int text with
         | Some n => Some n
         | None => Some 5
         end)
      calls user_query complexity_threshold.
Proof.
  unfold assess_and_route, complexity_score.
  destruct (llm calls complexity_template [("query", user_query)])
    as [complexity_assessment | e]; [| reflexivity].
  destruct (leading_int complexity_assessment); reflexivity.
Qed.

End ChainFactoryProperties.

(** The second of three echoing steps answers the output of the first. *)
Lemma outputs_feed_forward_witness :
  exists ticket,
    (0 <= ticket < 3)%nat /\
    echo_llm ticket "Draft: {input}" [("input", "OUT:X")]
    = Returned "OUT:OUT:X".
Proof.
  pose proof (outputs_feed_forward echo_llm 3 new_manager echo_steps "X")
    as Hfed.
  specialize (Hfed _ _ _ _ _ _ ltac:(lia) eq_refl 1%nat _ _ eq_refl eq_refl).
  exact Hfed.
Defined.

(** A query rated 8 against the threshold 5 goes through the three
    complex steps. *)
Lemma complex_route_returns_witness :
  (0 + 1
   <= fst (assess_and_route rating_llm digit_score 0 "q" 5)
   <= 0 + 13)%nat /\
  snd (assess_and_route rating_llm digit_score 0 "q" 5)
  = Returned (VStr "OUT:OUT:OUT:q").
Proof.
  apply (complex_route_returns rating_llm digit_score 0 "q" 5 "8 - many parts").
  - reflexivity.
  - reflexivity.
Defined.

(** Three timeouts, then the quota error: the failure reports the quota
    error. *)
Lemma failure_reports_last_attempt_witness :
  let run :=
    execute_sequential_chain tiring_llm 3 new_manager [plain_step "t"] "X" in
  snd run
  = ChainFailure "Chain failed at step 1 after 4 attempts: quota exceeded"
      [] (outcome_history (snd run)) 0 /\
  exists pre s post input1 ran e,
    [plain_step "t"] = (pre ++ s :: post)%list /\
    generate_and_validate tiring_llm (invocations (fst run) - 1)
      (List.length pre) s input1 = AttemptRaised ran e /\
    snd run
    = ChainFailure
        ("Chain failed at step " ++ str_nat (List.length pre + 1)
           ++ " after " ++ str_int (3 + 1) ++ " attempts: " ++ str_exn e)
        (outcome_results (snd run)) (outcome_history (snd run))
        (outcome_total_steps (snd run)).
Proof.
  intros run. split; [vm_compute; reflexivity |].
  apply (failure_reports_last_attempt tiring_llm 3 new_manager
           [plain_step "t"] "X" (fst run) (snd run)).
  - apply surjective_pairing.
  - vm_compute. reflexivity.
Defined.
